(** * stream_processing.py: the stream loop, its metrics and its alert window

    A shallow embedding of [run_stream] from [src/stream_processing.py]:
    the per-line decoding and filtering, the in-place metric updates, the
    per-title deque of edit timestamps with its front eviction and
    clear-on-alert, the periodic flush, and the reconnect / interrupt
    handling of the surrounding [while True: try: ... except ...].

    Conventions of the embedding.
    - A Python [str] is a [string] holding its UTF-8 bytes: a character
      is one byte or a lead byte followed by continuation bytes, and the
      operations that count or classify characters ([str.strip],
      [s[:200]]) work on those sequences. A Python [int] is a [Z]; the
      edit counter, which starts at 0 and is only incremented, is a
      [nat].
    - Python floats are outside the embedding: by the feed's schema no
      field read by [run_stream] holds one.
    - [time.time()] readings are inputs of the model, as rationals [Q].
    - The two dictionaries are [gmap]s keyed by title; [TRACKED_TITLES]
      is a [gset].
    - The files written by the helpers are modelled by what was handed to
      them; the [iso_now()] stamp that [log_alert] and
      [append_metrics_row] add at write time is a clock reading of the
      sink and is left out. The sinks record the text handed to them
      and do not model the encoding done by the file object: a [str]
      with an unpaired surrogate, which [open(..., encoding="utf-8")]
      refuses to write, is taken not to reach them.
    - An exception that no [except] clause of [run_stream] catches ends
      the run; the state reached at that point is kept so that what was
      already mutated or written stays visible. *)

From stdpp Require Import gmap strings list fin_maps pretty sorting.
From Stdlib Require Import QArith Ascii.

Open Scope Z_scope.

(** ** Configuration (module-level constants of the source) *)

Definition TRACKED_TITLES : gset string :=
  {[ "United States"; "Donald Trump"; "Elon Musk"; "YouTube"; "Wikipedia" ]}.

Definition ALERT_WINDOW_SECONDS : Z := 60 * 30.
Definition ALERT_COUNT : nat := 5.
Definition FLUSH_EVERY_SECONDS : Z := 20.

(** ** The alert window (lines 180-192 of the source)

    [dq] is the deque of one title, oldest insertion first. *)

(** [while dq and dq[0] < cutoff: dq.popleft()] *)
Fixpoint evict (cutoff : Z) (dq : list Z) : list Z :=
  match dq with
  | [] => []
  | front :: rest => if front <? cutoff then evict cutoff rest else dq
  end.

(** [dq.append(ts)], then the eviction against [ts - ALERT_WINDOW_SECONDS]:
    the deque on which [len(dq) >= ALERT_COUNT] is evaluated. *)
Definition window_after_evict (dq : list Z) (ts : Z) : list Z :=
  evict (ts - ALERT_WINDOW_SECONDS) (dq ++ [ts]).

(** Result of one pass through lines 180-192: whether the alert branch was
    taken, the [len(dq)] the test saw (the number the alert message
    prints), and the deque left behind. *)
Record Recorded := mkRecorded {
  fired : bool;
  window_size : nat;
  dq_after : list Z
}.

Definition record_edit (dq : list Z) (ts : Z) : Recorded :=
  let dq' := window_after_evict dq ts in
  if bool_decide (ALERT_COUNT ≤ length dq')%nat
  then mkRecorded true (length dq') []   (* log_alert(...); dq.clear() *)
  else mkRecorded false (length dq') dq'.

(** A title's deque after a series of edits, starting from the empty deque
    that [defaultdict(lambda: deque())] creates on first use. *)
Definition run_window (tss : list Z) : list Z :=
  foldl (fun dq ts => dq_after (record_edit dq ts)) [] tss.

(** The [len(dq)] printed by each alert raised along a series of edits. *)
Fixpoint fired_counts (dq : list Z) (tss : list Z) : list nat :=
  match tss with
  | [] => []
  | ts :: rest =>
      let r := record_edit dq ts in
      (if fired r then [window_size r] else []) ++ fired_counts (dq_after r) rest
  end.

(** ** Values and strings *)

(** What [json.loads] can return: [None], [bool], [int], [str], [list],
    [dict]. A dict is its members in textual order. Number literals with a
    fraction or an exponent, [NaN] and [Infinity] become Python floats,
    which this embedding does not cover: by the feed's schema [timestamp]
    is integer epoch seconds. *)
#[warnings="-register-all"]
Inductive json :=
| JNull
| JBool (b : bool)
| JInt (z : Z)
| JStr (s : string)
| JArr (items : list json)
| JObj (members : list (string * json)).

(** [event.get(key)] on a dict: the value of the last member with that key
    (a repeated key keeps its last value), [None] when there is none. *)
Fixpoint dict_get (key : string) (members : list (string * json)) : json :=
  match members with
  | [] => JNull
  | (k, v) :: rest =>
      if existsb (fun kv => String.eqb kv.1 key) rest then dict_get key rest
      else if String.eqb k key then v else JNull
  end.

(** Python truthiness, as used by [x or ""]. *)
Definition truthy (v : json) : bool :=
  match v with
  | JNull => false
  | JBool b => b
  | JInt z => negb (z =? 0)
  | JStr s => negb (String.eqb s "")
  | JArr items => match items with [] => false | _ => true end
  | JObj members => match members with [] => false | _ => true end
  end.

Definition byte (n : Z) : ascii := ascii_of_nat (Z.to_nat n).

(** UTF-8 bytes of a code point. *)
Definition utf8 (cp : Z) : list ascii :=
  if cp <? 128 then [byte cp]
  else if cp <? 2048 then [byte (192 + cp `div` 64); byte (128 + cp `mod` 64)]
  else if cp <? 65536 then
    [byte (224 + cp `div` 4096); byte (128 + (cp `div` 64) `mod` 64); byte (128 + cp `mod` 64)]
  else
    [byte (240 + cp `div` 262144); byte (128 + (cp `div` 4096) `mod` 64);
     byte (128 + (cp `div` 64) `mod` 64); byte (128 + cp `mod` 64)].

(** [chr(cp)] *)
Definition chr (cp : Z) : string := String.string_of_list_ascii (utf8 cp).

(** The code points for which [str.isspace()] holds, the ones
    [str.strip()] removes: TAB, LF, VT, FF, CR, FS, GS, RS, US, space,
    NEL, no-break space, ogham space mark, the spaces U+2000 to U+200A,
    line and paragraph separator, narrow no-break space, medium
    mathematical space and ideographic space. *)
Definition WHITESPACE : list Z :=
  [9; 10; 11; 12; 13; 28; 29; 30; 31; 32; 133; 160; 5760;
   8192; 8193; 8194; 8195; 8196; 8197; 8198; 8199; 8200; 8201; 8202;
   8232; 8233; 8239; 8287; 12288].

(** [s.isspace()] for a string of one character. *)
Definition isspace (s : string) : bool :=
  existsb (λ cp, String.eqb s (chr cp)) WHITESPACE.

(** [s.lstrip()]: a whitespace character takes one, two or three bytes. *)
Fixpoint lstrip (s : string) : string :=
  match s with
  | EmptyString => EmptyString
  | String c1 rest1 =>
      if isspace (String c1 EmptyString) then lstrip rest1
      else
        match rest1 with
        | EmptyString => s
        | String c2 rest2 =>
            if isspace (String c1 (String c2 EmptyString)) then lstrip rest2
            else
              match rest2 with
              | EmptyString => s
              | String c3 rest3 =>
                  if isspace (String c1 (String c2 (String c3 EmptyString)))
                  then lstrip rest3 else s
              end
        end
  end.

(** [s.rstrip()]: once what follows a byte has been stripped, the byte
    goes too when, with what is left after it, it makes up exactly one
    whitespace character. *)
Fixpoint rstrip (s : string) : string :=
  match s with
  | EmptyString => EmptyString
  | String c rest =>
      let kept := String c (rstrip rest) in
      if isspace kept then EmptyString else kept
  end.

Definition strip (s : string) : string := rstrip (lstrip s).

(** [len(s)]: the bytes that are not continuation bytes (0x80 to 0xBF). *)
Definition is_continuation (c : ascii) : bool :=
  let n := nat_of_ascii c in ((128 <=? n) && (n <=? 191))%nat.

Fixpoint utf8_length (s : string) : nat :=
  match s with
  | EmptyString => 0%nat
  | String c rest => if is_continuation c then utf8_length rest else S (utf8_length rest)
  end.

(** [s[:n]]: the first [n] characters, each with its continuation bytes. *)
Fixpoint utf8_take (n : nat) (s : string) : string :=
  match s with
  | EmptyString => EmptyString
  | String c rest =>
      if is_continuation c then String c (utf8_take n rest)
      else
        match n with
        | O => EmptyString
        | S n' => String c (utf8_take n' rest)
        end
  end.

(** [s[n:]] *)
Fixpoint string_drop (n : nat) (s : string) : string :=
  match n, s with
  | O, _ => s
  | S n', String _ rest => string_drop n' rest
  | S _, EmptyString => EmptyString
  end.

(** ** [datetime.fromtimestamp(ts, tz=timezone.utc).isoformat()] *)

(** The instants a [datetime] can hold: years 1 to 9999. *)
Definition MIN_TIMESTAMP : Z := -62135596800.
Definition MAX_TIMESTAMP : Z := 253402300799.

(** Proleptic Gregorian date [(year, month, day)] of a day count relative
    to 1970-01-01. *)
Definition civil_from_days (days : Z) : Z * Z * Z :=
  let z := days + 719468 in
  let era := z `div` 146097 in
  let doe := z - era * 146097 in
  let yoe := (doe - doe `div` 1460 + doe `div` 36524 - doe `div` 146096) `div` 365 in
  let doy := doe - (365 * yoe + yoe `div` 4 - yoe `div` 100) in
  let mp := (5 * doy + 2) `div` 153 in
  let d := doy - (153 * mp + 2) `div` 5 + 1 in
  let m := if mp <? 10 then mp + 3 else mp - 9 in
  let y := yoe + era * 400 + (if m <=? 2 then 1 else 0) in
  (y, m, d).

(** Decimal rendering of a non-negative number, zero-padded to [width]. *)
Definition zero_pad (width : nat) (n : Z) : string :=
  let digits := pretty n in
  String.concat "" (replicate (width - String.length digits) "0") +:+ digits.

Definition isoformat_utc (ts : Z) : string :=
  let '(y, m, d) := civil_from_days (ts `div` 86400) in
  let secs := ts `mod` 86400 in
  zero_pad 4 y +:+ "-" +:+ zero_pad 2 m +:+ "-" +:+ zero_pad 2 d +:+ "T" +:+
  zero_pad 2 (secs `div` 3600) +:+ ":" +:+ zero_pad 2 ((secs `mod` 3600) `div` 60) +:+ ":" +:+
  zero_pad 2 (secs `mod` 60) +:+ "+00:00".

(** [None] stands for the exception raised outside the representable range
    ([ValueError], [OverflowError] or [OSError] depending on magnitude). *)
Definition fromtimestamp_isoformat (ts : Z) : option string :=
  if (MIN_TIMESTAMP <=? ts) && (ts <=? MAX_TIMESTAMP) then Some (isoformat_utc ts) else None.

(** The integer a [timestamp] value denotes for [datetime.fromtimestamp],
    [ts - ALERT_WINDOW_SECONDS] and [dq[0] < cutoff]: an [int], or a
    [bool] (a subclass of [int]). Any other type makes
    [datetime.fromtimestamp] raise [TypeError]. *)
Definition timestamp_value (ts : json) : option Z :=
  match ts with
  | JInt z => Some z
  | JBool b => Some (Z.b2z b)
  | _ => None
  end.

(** [int(time.time())]: truncation toward zero. *)
Definition int_of_time (t : Q) : Z := Qnum t `quot` Z.pos (Qden t).

(** ** State of [run_stream] *)

(** Exceptions that can arise in the loop body and that neither
    [except json.JSONDecodeError], nor
    [except (requests.RequestException, TimeoutError)], nor (inside the
    network handler) [except KeyboardInterrupt] catches. The
    [ValueError] of [json.loads] is the plain one of [int()], not its
    subclass [JSONDecodeError]. *)
Inductive exn :=
| AttributeError      (* [event.get] on a value that is not a dict *)
| TypeError           (* unhashable title, non-numeric timestamp, unsliceable comment *)
| FromTimestampError  (* [datetime.fromtimestamp] out of range *)
| KeyError            (* [metrics[title]] without an entry *)
| KeyboardInterrupt   (* raised while the network handler sleeps *)
| RecursionError      (* [json.loads] on a text nested too deeply *)
| ValueError.         (* [json.loads] on an integer literal of too many digits *)

(** One value of the [metrics] dictionary. *)
Record EntityMetrics := mkMetrics {
  total_edits : nat;
  last_edit_utc : option string;
  last_user : json;
  last_comment : json
}.

(** One row handed to [csv.writer] by [append_metrics_row], without its
    leading [iso_now()] cell. *)
Record MetricsRow := mkRow {
  row_title : string;
  row_total_edits : nat;
  row_last_edit_utc : string;
  row_last_user : json;
  row_last_comment : json
}.

Record State := mkState {
  metrics : gmap string EntityMetrics;
  recent_edits : gmap string (list Z);
  last_flush : Q;
  metrics_csv : list MetricsRow;                (* rows appended to METRICS_CSV *)
  snapshot_json : gmap string EntityMetrics;    (* content of SNAPSHOT_JSON *)
  alerts_log : list string;                     (* messages appended to ALERTS_LOG *)
  stdout : list string
}.

Definition set_metrics (f : gmap string EntityMetrics → gmap string EntityMetrics) (st : State) : State :=
  mkState (f (metrics st)) (recent_edits st) (last_flush st) (metrics_csv st)
          (snapshot_json st) (alerts_log st) (stdout st).

Definition set_recent_edits (f : gmap string (list Z) → gmap string (list Z)) (st : State) : State :=
  mkState (metrics st) (f (recent_edits st)) (last_flush st) (metrics_csv st)
          (snapshot_json st) (alerts_log st) (stdout st).

Definition set_last_flush (now : Q) (st : State) : State :=
  mkState (metrics st) (recent_edits st) now (metrics_csv st)
          (snapshot_json st) (alerts_log st) (stdout st).

(** [write_snapshot(metrics)]: the file is overwritten with a dump of the
    whole dictionary. *)
Definition write_snapshot (st : State) : State :=
  mkState (metrics st) (recent_edits st) (last_flush st) (metrics_csv st)
          (metrics st) (alerts_log st) (stdout st).

(** [log_alert(msg)] *)
Definition log_alert (msg : string) (st : State) : State :=
  mkState (metrics st) (recent_edits st) (last_flush st) (metrics_csv st)
          (snapshot_json st) (alerts_log st ++ [msg]) (stdout st).

Definition print (line : string) (st : State) : State :=
  mkState (metrics st) (recent_edits st) (last_flush st) (metrics_csv st)
          (snapshot_json st) (alerts_log st) (stdout st ++ [line]).

(** [x or ""] *)
Definition or_empty (v : json) : json := if truthy v then v else JStr "".

(** [(m["last_comment"] or "")[:200]]: a slice of a [str] (its first 200
    characters) or of a [list]; an [int], a [True] or a non-empty [dict]
    cannot be sliced. *)
Definition comment_cell (v : json) : option json :=
  match or_empty v with
  | JStr s => Some (JStr (utf8_take 200 s))
  | JArr items => Some (JArr (take 200 items))
  | _ => None
  end.

(** [append_metrics_row(title, m)] *)
Definition append_metrics_row (title : string) (m : EntityMetrics) (st : State)
  : exn + State :=
  match comment_cell (last_comment m) with
  | None => inl TypeError
  | Some c =>
      let row := mkRow title (total_edits m) (default "" (last_edit_utc m))
                       (or_empty (last_user m)) c in
      inr (mkState (metrics st) (recent_edits st) (last_flush st)
                   (metrics_csv st ++ [row])
                   (snapshot_json st) (alerts_log st) (stdout st))
  end.

(** How one pass through the loop body ends: at the bottom or at a
    [continue], or with an exception leaving [run_stream]. *)
Inductive Outcome :=
| Continue (st : State)
| Raise (e : exn) (st : State).

(** [for t in TRACKED_TITLES: append_metrics_row(t, metrics[t])], the
    titles in the order the set yields them. Rows written before a failing
    one stay in the file. *)
Fixpoint append_all_rows (titles : list string) (st : State) : Outcome :=
  match titles with
  | [] => Continue st
  | t :: rest =>
      match metrics st !! t with
      | None => Raise KeyError st
      | Some m =>
          match append_metrics_row t m st with
          | inl e => Raise e st
          | inr st' => append_all_rows rest st'
          end
      end
  end.

(** Lines 195-200: [now = time.time()] and the periodic flush. *)
Definition flush_periodically (now : Q) (st : State) : Outcome :=
  if Qle_bool (inject_Z FLUSH_EVERY_SECONDS) (now - last_flush st) then
    match append_all_rows (elements TRACKED_TITLES) st with
    | Continue st' => Continue (set_last_flush now (write_snapshot st'))
    | Raise e st' => Raise e st'
    end
  else Continue st.

(** The f-string of line 189. *)
Definition alert_message (title : string) (count : nat) : string :=
  "ALERT: '" +:+ title +:+ "' had " +:+ pretty count +:+ " edits in the last " +:+
  pretty (ALERT_WINDOW_SECONDS `div` 60) +:+ " minutes.".

(** Lines 180-192 on the state: [recent_edits[title]] creates the deque on
    first use. *)
Definition update_alert_window (title : string) (ts : Z) (st : State) : State :=
  let r := record_edit (default [] (recent_edits st !! title)) ts in
  let st' := set_recent_edits (<[title := dq_after r]>) st in
  if fired r then log_alert (alert_message title (window_size r)) st' else st'.

(** Lines 167-200, for an event whose title passed the membership test.
    [clock] is the reading [time.time()] would give at line 171, [now] the
    one of line 195. *)
Definition process_tracked (title : string) (event : list (string * json))
    (clock now : Q) (st : State) : Outcome :=
  let user := dict_get "user" event in
  let comment := dict_get "comment" event in
  let ts := match dict_get "timestamp" event with
            | JNull => JInt (int_of_time clock)
            | v => v
            end in
  match metrics st !! title with
  | None => Raise KeyError st
  | Some m =>
      (* line 174 *)
      let m1 := mkMetrics (S (total_edits m)) (last_edit_utc m) (last_user m) (last_comment m) in
      let st1 := set_metrics (<[title := m1]>) st in
      (* line 175 *)
      match timestamp_value ts with
      | None => Raise TypeError st1
      | Some z =>
          match fromtimestamp_isoformat z with
          | None => Raise FromTimestampError st1
          | Some iso =>
              (* lines 175-177 *)
              let m2 := mkMetrics (S (total_edits m)) (Some iso) user comment in
              let st2 := set_metrics (<[title := m2]>) st in
              flush_periodically now (update_alert_window title z st2)
          end
      end
  end.

(** ** The loop body and the connection loop *)

Inductive Mode :=
| Connecting          (* inside [requests.get] / [raise_for_status] *)
| Streaming           (* waiting on [r.iter_lines] *)
| Backoff             (* inside [time.sleep(5)] of the network handler *)
| Stopped             (* after [break] *)
| Crashed (e : exn).  (* an exception left [run_stream] *)

(** What the environment can present to [run_stream]. A pass through the
    loop body is one transition: an interrupt is observed at the blocking
    calls, not between two statements of the body. *)
Inductive Input :=
| Connected                              (* the response arrived with a good status *)
| Line (raw_line : string) (clock now : Q)  (* [iter_lines] yields a line *)
| StreamEnd                              (* [iter_lines] is exhausted *)
| TransportError (repr_e : string)       (* [RequestException] or [TimeoutError] *)
| SleepDone                              (* [time.sleep(5)] returns *)
| Interrupt.                             (* Ctrl-C: [KeyboardInterrupt] is raised *)

(** Lines 113-132. [t0] is the reading of [time.time()] at line 130. *)
Definition initial_metrics : gmap string EntityMetrics :=
  gset_to_gmap (mkMetrics 0 None JNull JNull) TRACKED_TITLES.

Definition init (t0 : Q) : State :=
  mkState initial_metrics ∅ t0 [] initial_metrics [] [].

(** Lines 163-200: what the loop body does with the value [json.loads]
    returned. *)
Definition process_event (event : json) (clock now : Q) (st : State) : Outcome :=
  match event with
  | JObj members =>
      match dict_get "title" members with
      | JStr title =>
          if bool_decide (title ∈ TRACKED_TITLES)
          then process_tracked title members clock now st
          else Continue st
      | JArr _ | JObj _ => Raise TypeError st       (* unhashable title *)
      | JNull | JBool _ | JInt _ => Continue st
      end
  | _ => Raise AttributeError st                     (* no [get] method *)
  end.

(** The loop body applied to a series of decoded events; it stops at the
    first exception. *)
Fixpoint process_events (events : list (json * Q * Q)) (st : State) : Outcome :=
  match events with
  | [] => Continue st
  | (event, clock, now) :: rest =>
      match process_event event clock now st with
      | Continue st' => process_events rest st'
      | Raise e st' => Raise e st'
      end
  end.

(** A decoded change event with the fields of the feed's schema: [title]
    a string, [user] and [comment] optional strings, [timestamp] optional
    integer epoch seconds. *)
Record ChangeEvent := mkEvent {
  title : string;
  user : option string;
  comment : option string;
  timestamp : option Z
}.

Definition opt_str (o : option string) : json :=
  match o with Some s => JStr s | None => JNull end.

(** The dict [json.loads] builds for such an event. *)
Definition event_json (ev : ChangeEvent) : json :=
  JObj [ ("title", JStr (title ev)); ("user", opt_str (user ev));
         ("comment", opt_str (comment ev));
         ("timestamp", match timestamp ev with Some z => JInt z | None => JNull end) ].

(** What a call [json.loads(data_str)] does: it returns a value, or it
    raises [json.JSONDecodeError] on a text that is not JSON,
    [RecursionError] on lists and dicts nested beyond what the
    interpreter's recursion limit allows, or [ValueError] on an integer
    literal of more digits than [int()] converts. *)
Inductive Loaded :=
| Decoded (event : json)
| NotJSON
| TooDeep
| TooManyDigits.

Section Loop.

(** [json.loads] of the standard library. *)
Variable json_loads : string → Loaded.

(** Lines 146-200: one iteration of [for raw_line in r.iter_lines(...)]. *)
Definition process_line (raw_line : string) (clock now : Q) (st : State) : Outcome :=
  if String.eqb raw_line "" then Continue st
  else if negb (String.prefix "data:" raw_line) then Continue st
  else
    let data_str := strip (string_drop (String.length "data:") raw_line) in
    if String.eqb data_str "[DONE]" then Continue st
    else
      match json_loads data_str with
      | NotJSON => Continue st                     (* [except json.JSONDecodeError] *)
      | TooDeep => Raise RecursionError st
      | TooManyDigits => Raise ValueError st
      | Decoded event => process_event event clock now st
      end.

(** Lines 202-205. *)
Definition on_transport_error (repr_e : string) (st : State) : Mode * State :=
  (Backoff, log_alert ("INFO: reconnecting after error: " +:+ repr_e) st).

(** Lines 206-210. *)
Definition on_keyboard_interrupt (st : State) : Mode * State :=
  (Stopped, print "Stopped. Snapshot saved." (write_snapshot st)).

(** One transition of lines 140-210. [None]: the input cannot occur in
    that mode. *)
Definition step (c : Mode * State) (i : Input) : option (Mode * State) :=
  let '(mode, st) := c in
  match mode, i with
  | Connecting, Connected => Some (Streaming, st)
  | Connecting, TransportError e => Some (on_transport_error e st)
  | Connecting, Interrupt => Some (on_keyboard_interrupt st)
  | Streaming, Line raw_line clock now =>
      match process_line raw_line clock now st with
      | Continue st' => Some (Streaming, st')
      | Raise e st' => Some (Crashed e, st')
      end
  | Streaming, StreamEnd => Some (Connecting, st)
  | Streaming, TransportError e => Some (on_transport_error e st)
  | Streaming, Interrupt => Some (on_keyboard_interrupt st)
  | Backoff, SleepDone => Some (Connecting, st)
  | Backoff, Interrupt => Some (Crashed KeyboardInterrupt, st)
  | _, _ => None
  end.

Fixpoint run (c : Mode * State) (inputs : list Input) : option (Mode * State) :=
  match inputs with
  | [] => Some c
  | i :: rest =>
      match step c i with
      | Some c' => run c' rest
      | None => None
      end
  end.

End Loop.

(** ** A reference decoder for concrete lines

    The development is parametric in [json_loads]. To run it on concrete
    feed lines, [JsonRef.loads] decodes JSON texts as [json.loads] does
    with the scanner of the [json] module: strings are kept as UTF-8
    bytes, each list or dict entered uses up one level of the recursion
    limit, and an integer literal is converted by [int()]. A text with a
    number literal that has a fraction or an exponent, or with [NaN] or
    [Infinity], for which [json.loads] builds a float, has no value in
    [json]: such texts are outside what the decoder is used for, and it
    answers [NotJSON] on them. *)
Module JsonRef.

Definition dquote : ascii := "034".

(** [sys.getrecursionlimit()], which the source leaves at its default,
    and the levels in use when the scanner starts on the text: the
    frames of the module, of [run_stream], of [json.loads], of
    [JSONDecoder.decode] and of [raw_decode], and the scanner's own. The
    count is CPython 3.11's and moves with the interpreter's version:
    [loads_within] takes the levels left as a parameter. *)
Definition RECURSION_LIMIT : nat := 1000.
Definition LEVELS_IN_USE : nat := 6.

(** [sys.get_int_max_str_digits()] *)
Definition INT_MAX_STR_DIGITS : nat := 4300.

(** What a scanning function answers: a value and the text after it, or
    the exception it raises ([JSONDecodeError], [RecursionError],
    [ValueError]). *)
Inductive Parsed (A : Type) :=
| Ok (a : A) (rest : string)
| Malformed
| Deep
| TooLong.

Arguments Ok {A} a rest.
Arguments Malformed {A}.
Arguments Deep {A}.
Arguments TooLong {A}.

Definition bind {A B : Type} (p : Parsed A) (k : A → string → Parsed B) : Parsed B :=
  match p with
  | Ok a rest => k a rest
  | Malformed => Malformed
  | Deep => Deep
  | TooLong => TooLong
  end.

Definition of_option {A : Type} (o : option (A * string)) : Parsed A :=
  match o with
  | Some (a, rest) => Ok a rest
  | None => Malformed
  end.

Definition is_ws (c : ascii) : bool :=
  let n := nat_of_ascii c in
  ((n =? 32) || (n =? 9) || (n =? 10) || (n =? 13))%nat.

Fixpoint skip_ws (s : string) : string :=
  match s with
  | String c rest => if is_ws c then skip_ws rest else s
  | EmptyString => EmptyString
  end.

Definition is_digit (c : ascii) : bool :=
  let n := nat_of_ascii c in ((48 <=? n) && (n <=? 57))%nat.

Definition digit_value (c : ascii) : Z := Z.of_nat (nat_of_ascii c) - 48.

Definition hex_value (c : ascii) : option Z :=
  let n := Z.of_nat (nat_of_ascii c) in
  if (48 <=? n) && (n <=? 57) then Some (n - 48)
  else if (65 <=? n) && (n <=? 70) then Some (n - 55)
  else if (97 <=? n) && (n <=? 102) then Some (n - 87)
  else None.

(** Body of a string literal, after the opening quote: the characters
    read (a [\uXXXX] escape as its code unit) and the text that follows
    the closing quote. *)
Fixpoint string_body (s : string) : option (list (ascii + Z) * string) :=
  match s with
  | EmptyString => None
  | String c rest =>
      if Ascii.eqb c dquote then Some ([], rest)
      else if (nat_of_ascii c <? 32)%nat then None
      else if Ascii.eqb c "\" then
        match rest with
        | String e rest' =>
            let simple (x : Z) :=
              match string_body rest' with
              | Some (cs, r) => Some (inl (byte x) :: cs, r)
              | None => None
              end in
            if Ascii.eqb e dquote then simple 34
            else if Ascii.eqb e "\" then simple 92
            else if Ascii.eqb e "/" then simple 47
            else if Ascii.eqb e "b" then simple 8
            else if Ascii.eqb e "f" then simple 12
            else if Ascii.eqb e "n" then simple 10
            else if Ascii.eqb e "r" then simple 13
            else if Ascii.eqb e "t" then simple 9
            else if Ascii.eqb e "u" then
              match rest' with
              | String h1 (String h2 (String h3 (String h4 rest''))) =>
                  match hex_value h1, hex_value h2, hex_value h3, hex_value h4 with
                  | Some a, Some b, Some c', Some d =>
                      match string_body rest'' with
                      | Some (cs, r) => Some (inr (((a * 16 + b) * 16 + c') * 16 + d) :: cs, r)
                      | None => None
                      end
                  | _, _, _, _ => None
                  end
              | _ => None
              end
            else None
        | EmptyString => None
        end
      else
        match string_body rest with
        | Some (cs, r) => Some (inl c :: cs, r)
        | None => None
        end
  end.

(** Surrogate pairs are joined; every code point is then encoded. *)
Fixpoint encode (cs : list (ascii + Z)) : list ascii :=
  match cs with
  | [] => []
  | inl c :: rest => c :: encode rest
  | inr hi :: rest =>
      match rest with
      | inr lo :: rest' =>
          if (55296 <=? hi) && (hi <? 56320) && (56320 <=? lo) && (lo <? 57344)
          then utf8 (65536 + (hi - 55296) * 1024 + (lo - 56320)) ++ encode rest'
          else utf8 hi ++ encode rest
      | _ => utf8 hi ++ encode rest
      end
  end.

Definition string_literal (s : string) : option (string * string) :=
  match string_body s with
  | Some (cs, rest) => Some (String.string_of_list_ascii (encode cs), rest)
  | None => None
  end.

(** A run of digits: its value, how many there are, and what follows. *)
Fixpoint digits (acc : Z) (count : nat) (s : string) : Z * nat * string :=
  match s with
  | String c rest =>
      if is_digit c then digits (acc * 10 + digit_value c) (S count) rest else (acc, count, s)
  | EmptyString => (acc, count, s)
  end.

Definition starts_with_digit (s : string) : bool :=
  match s with
  | String c _ => is_digit c
  | EmptyString => false
  end.

(** Whether the text after the integer part makes the literal a float: a
    point and a digit, or an exponent mark, an optional sign and a
    digit. *)
Definition builds_float (s : string) : bool :=
  match s with
  | String c rest =>
      if Ascii.eqb c "." then starts_with_digit rest
      else if Ascii.eqb c "e" || Ascii.eqb c "E" then
        match rest with
        | String sign rest' =>
            if Ascii.eqb sign "+" || Ascii.eqb sign "-" then starts_with_digit rest'
            else is_digit sign
        | EmptyString => false
        end
      else false
  | EmptyString => false
  end.

(** An optional minus sign, then [0] or a digit string without leading
    zero, converted by [int()]. *)
Definition number (s : string) : Parsed Z :=
  let '(neg, s1) := match s with
                    | String c rest => if Ascii.eqb c "-" then (true, rest) else (false, s)
                    | EmptyString => (false, s)
                    end in
  match s1 with
  | String c rest =>
      if is_digit c then
        let '(n, count, s2) := if Ascii.eqb c "0" then (0, 1%nat, rest) else digits 0 0 s1 in
        if builds_float s2 then Malformed
        else if (INT_MAX_STR_DIGITS <? count)%nat then TooLong
        else Ok (if neg then - n else n) s2
      else Malformed
  | EmptyString => Malformed
  end.

Definition literal (word : string) (v : json) (s : string) : Parsed json :=
  if String.prefix word s then Ok v (string_drop (String.length word) s) else Malformed.

(** [value], [members] (after the opening brace or a comma, at a key) and
    [items] (after the opening bracket or a comma, at a value). [depth]
    is the number of lists and dicts that may still be entered. *)
Fixpoint value (fuel depth : nat) (s : string) {struct fuel} : Parsed json :=
  match fuel with
  | O => Malformed
  | S fuel' =>
      match s with
      | EmptyString => Malformed
      | String c rest =>
          if Ascii.eqb c "{" then
            match depth with
            | O => Deep
            | S depth' =>
                match skip_ws rest with
                | String c' rest' =>
                    if Ascii.eqb c' "}" then Ok (JObj []) rest'
                    else bind (members fuel' depth' (skip_ws rest)) (λ kvs r, Ok (JObj kvs) r)
                | EmptyString => Malformed
                end
            end
          else if Ascii.eqb c "[" then
            match depth with
            | O => Deep
            | S depth' =>
                match skip_ws rest with
                | String c' rest' =>
                    if Ascii.eqb c' "]" then Ok (JArr []) rest'
                    else bind (items fuel' depth' (skip_ws rest)) (λ vs r, Ok (JArr vs) r)
                | EmptyString => Malformed
                end
            end
          else if Ascii.eqb c dquote then
            bind (of_option (string_literal rest)) (λ str r, Ok (JStr str) r)
          else if Ascii.eqb c "t" then literal "true" (JBool true) s
          else if Ascii.eqb c "f" then literal "false" (JBool false) s
          else if Ascii.eqb c "n" then literal "null" JNull s
          else bind (number s) (λ n r, Ok (JInt n) r)
      end
  end
with members (fuel depth : nat) (s : string) {struct fuel}
  : Parsed (list (string * json)) :=
  match fuel with
  | O => Malformed
  | S fuel' =>
      match s with
      | String c rest =>
          if Ascii.eqb c dquote then
            bind (of_option (string_literal rest)) (λ key r1,
              match skip_ws r1 with
              | String colon r2 =>
                  if Ascii.eqb colon ":" then
                    bind (value fuel' depth (skip_ws r2)) (λ v r3,
                      match skip_ws r3 with
                      | String d r4 =>
                          if Ascii.eqb d "}" then Ok [(key, v)] r4
                          else if Ascii.eqb d "," then
                            bind (members fuel' depth (skip_ws r4))
                                 (λ kvs r5, Ok ((key, v) :: kvs) r5)
                          else Malformed
                      | EmptyString => Malformed
                      end)
                  else Malformed
              | EmptyString => Malformed
              end)
          else Malformed
      | EmptyString => Malformed
      end
  end
with items (fuel depth : nat) (s : string) {struct fuel} : Parsed (list json) :=
  match fuel with
  | O => Malformed
  | S fuel' =>
      bind (value fuel' depth s) (λ v r1,
        match skip_ws r1 with
        | String d r2 =>
            if Ascii.eqb d "]" then Ok [v] r2
            else if Ascii.eqb d "," then
              bind (items fuel' depth (skip_ws r2)) (λ vs r3, Ok (v :: vs) r3)
            else Malformed
        | EmptyString => Malformed
        end)
  end.

(** [json.loads(s)] when [limit] lists and dicts may still be entered:
    one value between optional whitespace, nothing after. *)
Definition loads_within (limit : nat) (s : string) : Loaded :=
  match value (2 * String.length s + 2) limit (skip_ws s) with
  | Ok v rest => match skip_ws rest with EmptyString => Decoded v | _ => NotJSON end
  | Malformed => NotJSON
  | Deep => TooDeep
  | TooLong => TooManyDigits
  end.

Definition loads : string → Loaded := loads_within (RECURSION_LIMIT - LEVELS_IN_USE).

(** JSON text of a value, for writing feed lines down: inside a string
    only the quote and the backslash are escaped, which is all the
    sample lines below need. *)
Fixpoint escape (s : string) : string :=
  match s with
  | EmptyString => EmptyString
  | String c rest =>
      if Ascii.eqb c dquote || Ascii.eqb c "\" then String "\" (String c (escape rest))
      else String c (escape rest)
  end.

Definition quoted (s : string) : string :=
  String dquote (escape s) +:+ String dquote EmptyString.

Fixpoint text_of (v : json) : string :=
  match v with
  | JNull => "null"
  | JBool true => "true"
  | JBool false => "false"
  | JInt z => pretty z
  | JStr s => quoted s
  | JArr vs => "[" +:+ String.concat ", " (map text_of vs) +:+ "]"
  | JObj kvs =>
      "{" +:+ String.concat ", " (map (λ kv, quoted kv.1 +:+ ": " +:+ text_of kv.2) kvs) +:+ "}"
  end.

End JsonRef.

(** ** Vocabulary of the statements *)

(** The SSE line carrying a decoded event. *)
Definition feed_line (ev : ChangeEvent) : string :=
  "data: " +:+ JsonRef.text_of (event_json ev).

(** Decoded events as the loop body receives them. *)
Definition decoded (events : list (ChangeEvent * Q * Q)) : list (json * Q * Q) :=
  map (λ x, (event_json x.1.1, x.1.2, x.2)) events.

(** Every tracked title has its entry, and its stored comment is one that
    [append_metrics_row] can slice. *)
Definition healthy (st : State) : Prop :=
  ∀ name, name ∈ TRACKED_TITLES →
    ∃ m, metrics st !! name = Some m ∧ is_Some (comment_cell (last_comment m)).

(** Sample events. [edit_in_milliseconds] carries its timestamp in
    milliseconds, a date in the year 55840. *)
Definition edit_by_alice : ChangeEvent :=
  mkEvent "Wikipedia" (Some "Alice") (Some "typo") (Some 1700000000).

Definition edit_by_bob : ChangeEvent :=
  mkEvent "Wikipedia" (Some "Bob") (Some "revert") (Some 1600000000).

Definition edit_in_milliseconds : ChangeEvent :=
  mkEvent "Wikipedia" (Some "Carol") (Some "links") (Some 1700000000000).

Definition edit_elsewhere : ChangeEvent :=
  mkEvent "Some Other Page" (Some "Dave") None (Some 1700000000).

(** The state after the network handler has logged each of [errors]. *)
Definition after_errors (errors : list string) (st : State) : State :=
  foldl (λ s e, log_alert ("INFO: reconnecting after error: " +:+ e) s) st errors.

(** The state a pass through the loop body ends in. *)
Definition outcome_state (o : Outcome) : State :=
  match o with
  | Continue st => st
  | Raise _ st => st
  end.

(** Every deque is below the alert threshold. *)
Definition windows_below (st : State) : Prop :=
  ∀ name dq, recent_edits st !! name = Some dq → (length dq < ALERT_COUNT)%nat.

(** Every line of the alert log is a reconnect notice or an alert that
    reports exactly [ALERT_COUNT] edits. *)
Definition alerts_exact (st : State) : Prop :=
  Forall (λ msg, (∃ e, msg = "INFO: reconnecting after error: " +:+ e) ∨
                 (∃ name, msg = alert_message name ALERT_COUNT))
         (alerts_log st).

(** Five edits of one title ten seconds apart, then a sixth. *)
Definition burst : list Input :=
  Connected ::
  map (λ k, Line (feed_line (mkEvent "Wikipedia" (Some "Alice") None (Some (1700000000 + 10 * k))))
                 0 (inject_Z k))
      [0; 1; 2; 3; 4; 5].

(** A failed connection attempt followed by its back-off, once per error. *)
Definition failed_attempts (errors : list string) : list Input :=
  flat_map (λ e, [TransportError e; SleepDone]) errors.

(** Lines 180-192 run for a series of edits of one title. *)
Definition record_edits (name : string) (tss : list Z) (st : State) : State :=
  foldl (λ s ts, update_alert_window name ts s) st tss.

(** The deque of a title, empty before its first edit. *)
Definition deque_of (name : string) (st : State) : list Z :=
  default [] (recent_edits st !! name).

(** A state in which four edits of one title are retained. *)
Definition four_retained : State :=
  set_recent_edits (<["Wikipedia" := [100; 101; 102; 103]]>) (init 0).

(** [n] opening brackets: lists that are never closed. *)
Fixpoint brackets (n : nat) : string :=
  match n with
  | O => EmptyString
  | S k => String "[" (brackets k)
  end.

(** A [data:] line whose payload is 2000 opening brackets. *)
Definition deeply_nested : string := "data: " +:+ brackets 2000.

(** ** Vocabulary of the further properties *)

(** Timestamps that all lie within one alert window of each other. *)
Definition within_one_window (tss : list Z) : Prop :=
  ∀ a b, a ∈ tss → b ∈ tss → b - ALERT_WINDOW_SECONDS ≤ a.

(** Timestamps each more than one alert window after its predecessor. *)
Definition far_apart (tss : list Z) : Prop :=
  ∀ i a b, tss !! i = Some a → tss !! S i = Some b → a + ALERT_WINDOW_SECONDS < b.

(** The text handed to [json.loads]: line 153. *)
Definition payload (raw_line : string) : string :=
  strip (string_drop (String.length "data:") raw_line).

(** The title under which lines 167-200 run for a decoded value, if they
    run at all: the value is a dict whose [title] is a tracked string. *)
Definition tracked_title (event : json) : option string :=
  match event with
  | JObj members =>
      match dict_get "title" members with
      | JStr name => if bool_decide (name ∈ TRACKED_TITLES) then Some name else None
      | _ => None
      end
  | _ => None
  end.

(** Decoded values on which lines 163-164 raise: not a dict, or a dict
    whose [title] is a list or a dict. *)
Definition ill_shaped (event : json) : option exn :=
  match event with
  | JObj members =>
      match dict_get "title" members with
      | JArr _ | JObj _ => Some TypeError
      | _ => None
      end
  | _ => Some AttributeError
  end.

(** The value of [ts] after lines 169-171. *)
Definition event_timestamp (members : list (string * json)) (clock : Q) : json :=
  match dict_get "timestamp" members with
  | JNull => JInt (int_of_time clock)
  | v => v
  end.

(** An entry after line 174 alone. *)
Definition bumped (m : EntityMetrics) : EntityMetrics :=
  mkMetrics (S (total_edits m)) (last_edit_utc m) (last_user m) (last_comment m).

(** The state after lines 174-192 when line 175 yields [iso] for the
    timestamp [z]. *)
Definition recorded_edit (name : string) (members : list (string * json))
    (z : Z) (iso : string) (m : EntityMetrics) (st : State) : State :=
  update_alert_window name z
    (set_metrics (<[name := mkMetrics (S (total_edits m)) (Some iso)
                              (dict_get "user" members) (dict_get "comment" members)]>) st).

(** A state with further rows in the CSV file. *)
Definition with_rows (rows : list MetricsRow) (st : State) : State :=
  mkState (metrics st) (recent_edits st) (last_flush st) (metrics_csv st ++ rows)
          (snapshot_json st) (alerts_log st) (stdout st).

(** The row [append_metrics_row] writes for a title, or the exception of
    the lookup [metrics[t]] or of the slice. *)
Definition row_for (name : string) (dict : gmap string EntityMetrics) : exn + MetricsRow :=
  match dict !! name with
  | None => inl KeyError
  | Some m =>
      match comment_cell (last_comment m) with
      | None => inl TypeError
      | Some c => inr (mkRow name (total_edits m) (default "" (last_edit_utc m))
                             (or_empty (last_user m)) c)
      end
  end.

(** The rows lines 197-198 write before they finish or raise. *)
Fixpoint rows_for (titles : list string) (dict : gmap string EntityMetrics)
  : list MetricsRow * option exn :=
  match titles with
  | [] => ([], None)
  | t :: rest =>
      match row_for t dict with
      | inl e => ([], Some e)
      | inr r => (r :: (rows_for rest dict).1, (rows_for rest dict).2)
      end
  end.

(** Whether line 196 finds the flush due. *)
Definition flush_due (now : Q) (st : State) : bool :=
  Qle_bool (inject_Z FLUSH_EVERY_SECONDS) (now - last_flush st).

(** The three ways lines 195-200 can end from a state [st]. *)
Variant flushed (now : Q) (st : State) : Outcome → Prop :=
| flush_not_due :
    flush_due now st = false →
    flushed now st (Continue st)
| flush_written :
    flush_due now st = true →
    (rows_for (elements TRACKED_TITLES) (metrics st)).2 = None →
    flushed now st
      (Continue (set_last_flush now (write_snapshot
         (with_rows (rows_for (elements TRACKED_TITLES) (metrics st)).1 st))))
| flush_raised (e : exn) :
    flush_due now st = true →
    (rows_for (elements TRACKED_TITLES) (metrics st)).2 = Some e →
    flushed now st (Raise e (with_rows (rows_for (elements TRACKED_TITLES) (metrics st)).1 st)).

(** The ways one pass through the loop body can end from a state [st]. *)
Variant pass (now : Q) (st : State) : Outcome → Prop :=
| pass_skipped :
    pass now st (Continue st)
| pass_ill_shaped (e : exn) :
    e = AttributeError ∨ e = TypeError →
    pass now st (Raise e st)
| pass_not_loaded (e : exn) :
    e = RecursionError ∨ e = ValueError →
    pass now st (Raise e st)
| pass_no_entry (name : string) :
    name ∈ TRACKED_TITLES → metrics st !! name = None →
    pass now st (Raise KeyError st)
| pass_unconverted (name : string) (m : EntityMetrics) (e : exn) :
    name ∈ TRACKED_TITLES → metrics st !! name = Some m →
    e = TypeError ∨ e = FromTimestampError →
    pass now st (Raise e (set_metrics (<[name := bumped m]>) st))
| pass_recorded (name : string) (m : EntityMetrics) (members : list (string * json))
    (z : Z) (iso : string) (o : Outcome) :
    name ∈ TRACKED_TITLES → metrics st !! name = Some m →
    flushed now (recorded_edit name members z iso m st) o →
    pass now st o.

(** Number of [TransportError]s among the inputs. *)
Definition transport_errors (inputs : list Input) : nat :=
  length (List.filter (λ i, match i with TransportError _ => true | _ => false end) inputs).

(** Number of lines among the inputs. *)
Definition lines_read (inputs : list Input) : nat :=
  length (List.filter (λ i, match i with Line _ _ _ => true | _ => false end) inputs).

(** Number of reconnect notices in the alert log. *)
Definition info_lines (log : list string) : nat :=
  length (List.filter (String.prefix "INFO: ") log).

(** Number of alerts for a title in the alert log. *)
Definition alerts_for (name : string) (log : list string) : nat :=
  length (List.filter (String.eqb (alert_message name ALERT_COUNT)) log).

(** The counter of a title, 0 without an entry. *)
Definition edits_counted (name : string) (st : State) : nat :=
  default 0%nat (total_edits <$> metrics st !! name).

Definition crashed (mode : Mode) : bool :=
  match mode with Crashed _ => true | _ => false end.

(** The loop is running: no [break] and no exception has ended it. *)
Definition live (mode : Mode) : bool :=
  match mode with
  | Connecting | Streaming | Backoff => true
  | Stopped | Crashed _ => false
  end.

(** A state in which 41 edits of one title have been counted, and the
    inputs of a reconnect followed by one more edit of that title. *)
Definition after_41_edits : State :=
  set_metrics (<["Wikipedia" := mkMetrics 41 (Some "2023-11-14T22:13:20+00:00")
                                           (JStr "Alice") (JStr "typo")]>) (init 0).

Definition reconnect_then_edit : list Input :=
  [TransportError "Timeout()"; SleepDone; Connected; Line (feed_line edit_by_alice) 0 1].

(** A comment of 250 two-byte characters. *)
Definition long_accented_comment : string :=
  String.concat EmptyString (replicate 250 (chr 233)).

(** A pass that left the CSV file, the snapshot and the flush timer alone,
    and a pass that flushed. *)
Definition files_untouched (st st' : State) : Prop :=
  metrics_csv st' = metrics_csv st ∧ snapshot_json st' = snapshot_json st ∧
  last_flush st' = last_flush st.

Definition whole_flush (now : Q) (st st' : State) : Prop :=
  flush_due now st = true ∧ last_flush st' = now ∧ snapshot_json st' = metrics st' ∧
  ∃ rows, metrics_csv st' = metrics_csv st ++ rows ∧
          map row_title rows = elements TRACKED_TITLES ∧
          Forall (λ r, ∃ m, metrics st' !! row_title r = Some m ∧
                            row_total_edits r = total_edits m ∧
                            row_last_edit_utc r = default "" (last_edit_utc m)) rows.

(** ** The CSV file across runs (lines 66-79 and 82-94)

    A file is [None] while its path does not exist, else its lines. *)
Inductive CsvLine :=
| HeaderLine (cells : list string)
| DataLine (row : MetricsRow).

Definition CSV_HEADER : list string :=
  ["timestamp_utc"; "title"; "total_edits"; "last_edit_utc"; "last_user"; "last_comment"].

(** [write_csv_header_if_needed(path)] *)
Definition write_csv_header_if_needed (file : option (list CsvLine)) : option (list CsvLine) :=
  match file with
  | None => Some [HeaderLine CSV_HEADER]
  | Some _ => file
  end.

(** The rows of a run reach the file through [open(METRICS_CSV, "a")],
    which creates a missing file. *)
Definition append_rows_to_file (rows : list MetricsRow) (file : option (list CsvLine))
  : option (list CsvLine) :=
  Some (default [] file ++ map DataLine rows).

(** The file after one run of [run_stream] that appended [rows], and after
    a series of runs. *)
Definition csv_after_run (file : option (list CsvLine)) (rows : list MetricsRow)
  : option (list CsvLine) :=
  append_rows_to_file rows (write_csv_header_if_needed file).

Definition csv_after_runs (file : option (list CsvLine)) (runs : list (list MetricsRow))
  : option (list CsvLine) :=
  foldl csv_after_run file runs.

(** Side conditions over the two constants of the alert rule. *)
Ltac window_arith :=
  unfold ALERT_WINDOW_SECONDS, ALERT_COUNT; simpl; lia.

(** * Properties *)

(** ** Strings and the text of an alert *)

Section StringFacts.

Lemma append_length (a b : string) :
  String.length (a +:+ b) = (String.length a + String.length b)%nat.
Proof.
  induction a as [|c a IH]; [done|].
  change (S (String.length (a +:+ b)) = S (String.length a + String.length b)).
  by rewrite IH.
Qed.

Lemma append_inv_tail (a b s : string) : a +:+ s = b +:+ s → a = b.
Proof.
  revert b. induction a as [|c a IH]; intros [|d b] Heq.
  - done.
  - apply (f_equal String.length) in Heq. rewrite !append_length in Heq.
    change (String.length (String d b)) with (S (String.length b)) in Heq.
    change (String.length "") with 0%nat in Heq. lia.
  - apply (f_equal String.length) in Heq. rewrite !append_length in Heq.
    change (String.length (String c a)) with (S (String.length a)) in Heq.
    change (String.length "") with 0%nat in Heq. lia.
  - change (String c (a +:+ s) = String d (b +:+ s)) in Heq.
    injection Heq as -> Heq. f_equal. by apply IH.
Qed.

(** The f-string of line 189, with the window length in minutes
    evaluated. *)
Lemma alert_message_text (name : string) (n : nat) :
  alert_message name n =
    "ALERT: '" +:+ name +:+ "' had " +:+ pretty n +:+ " edits in the last 30 minutes.".
Proof.
  assert (" edits in the last " +:+ pretty (ALERT_WINDOW_SECONDS `div` 60) +:+ " minutes."
          = " edits in the last 30 minutes.") as Htail by (by vm_compute).
  unfold alert_message. by rewrite Htail.
Qed.

Lemma alert_message_inj (a b : string) (n : nat) :
  alert_message a n = alert_message b n → a = b.
Proof.
  unfold alert_message. intros Heq.
  apply (inj (String.append "ALERT: '")) in Heq.
  by apply append_inv_tail in Heq.
Qed.

(** The count can be read back from the message. *)
Lemma alert_message_count_inj (name : string) (n n' : nat) :
  alert_message name n = alert_message name n' → n = n'.
Proof.
  unfold alert_message. intros Heq.
  apply (inj (String.append "ALERT: '")) in Heq.
  apply (inj (String.append name)) in Heq.
  apply (inj (String.append "' had ")) in Heq.
  apply append_inv_tail in Heq. by apply (inj pretty) in Heq.
Qed.

End StringFacts.

(** ** The alert window *)

Section WindowFacts.

Implicit Types (dq tss : list Z) (ts cutoff : Z).

Lemma evict_split cutoff dq :
  ∃ removed, dq = removed ++ evict cutoff dq ∧ Forall (λ t, t < cutoff) removed.
Proof.
  induction dq as [|front rest IH]; simpl.
  - by exists [].
  - destruct (Z.ltb_spec front cutoff) as [Hlt|Hge].
    + destruct IH as (removed & Heq & Hall).
      exists (front :: removed). split; [by rewrite Heq at 1 | by constructor].
    + by exists [].
Qed.

Lemma evict_head cutoff dq front :
  head (evict cutoff dq) = Some front → cutoff ≤ front.
Proof.
  induction dq as [|t rest IH]; simpl; [done|].
  destruct (Z.ltb_spec t cutoff); [done|].
  simpl. intros [= <-]. done.
Qed.

Lemma evict_suffix cutoff dq : evict cutoff dq `suffix_of` dq.
Proof.
  destruct (evict_split cutoff dq) as (removed & Heq & _).
  by exists removed.
Qed.

Lemma evict_length cutoff dq : (length (evict cutoff dq) ≤ length dq)%nat.
Proof. apply suffix_length, evict_suffix. Qed.

Lemma evict_fixed cutoff dq front :
  head dq = Some front → cutoff ≤ front → evict cutoff dq = dq.
Proof.
  destruct dq as [|t rest]; simpl; [done|].
  intros [= ->] Hle. destruct (Z.ltb_spec front cutoff); [lia|done].
Qed.

(** The timestamp just appended is never evicted. *)
Lemma window_keeps_newest dq ts :
  ∃ older, window_after_evict dq ts = older ++ [ts].
Proof.
  unfold window_after_evict, ALERT_WINDOW_SECONDS.
  induction dq as [|front rest IH]; simpl.
  - destruct (Z.ltb_spec ts (ts - 60 * 30)); [lia|]. by exists [].
  - destruct (Z.ltb_spec front (ts - 60 * 30)); [done|].
    by exists (front :: rest).
Qed.

Lemma window_nonempty dq ts : (1 ≤ length (window_after_evict dq ts))%nat.
Proof.
  destruct (window_keeps_newest dq ts) as [older ->].
  rewrite length_app. simpl. lia.
Qed.

Lemma window_of_empty ts : window_after_evict [] ts = [ts].
Proof.
  unfold window_after_evict, ALERT_WINDOW_SECONDS. simpl.
  destruct (Z.ltb_spec ts (ts - 60 * 30)); [lia|done].
Qed.

Lemma window_length_le dq ts :
  (length (window_after_evict dq ts) ≤ S (length dq))%nat.
Proof.
  unfold window_after_evict.
  etrans; [apply evict_length|]. rewrite length_app. simpl. lia.
Qed.

Lemma record_edit_fired dq ts :
  (ALERT_COUNT ≤ length (window_after_evict dq ts))%nat →
  record_edit dq ts = mkRecorded true (length (window_after_evict dq ts)) [].
Proof. intros H. unfold record_edit. by rewrite bool_decide_eq_true_2. Qed.

Lemma record_edit_quiet dq ts :
  (length (window_after_evict dq ts) < ALERT_COUNT)%nat →
  record_edit dq ts =
    mkRecorded false (length (window_after_evict dq ts)) (window_after_evict dq ts).
Proof.
  intros H. unfold record_edit. rewrite bool_decide_eq_false_2; [done|lia].
Qed.

Lemma record_edit_after_clear ts : record_edit [] ts = mkRecorded false 1 [ts].
Proof.
  rewrite record_edit_quiet; rewrite window_of_empty; [done|].
  unfold ALERT_COUNT. simpl. lia.
Qed.

(** Below the threshold before the call, below it after, and an alert
    can only have seen exactly [ALERT_COUNT] entries. *)
Lemma record_edit_below dq ts :
  (length dq < ALERT_COUNT)%nat →
  (length (dq_after (record_edit dq ts)) < ALERT_COUNT)%nat ∧
  (fired (record_edit dq ts) = true → window_size (record_edit dq ts) = ALERT_COUNT).
Proof.
  intros Hlt. pose proof (window_length_le dq ts) as Hle.
  unfold record_edit. case_bool_decide; simpl.
  - split; [unfold ALERT_COUNT; lia | intros _; lia].
  - split; [lia | done].
Qed.

Lemma run_window_snoc tss ts :
  run_window (tss ++ [ts]) = dq_after (record_edit (run_window tss) ts).
Proof. unfold run_window. by rewrite foldl_app. Qed.

Lemma run_window_below tss : (length (run_window tss) < ALERT_COUNT)%nat.
Proof.
  induction tss as [|ts tss IH] using rev_ind.
  - unfold ALERT_COUNT. simpl. lia.
  - rewrite run_window_snoc. by apply record_edit_below.
Qed.

(** The deque holds the most recent insertions, in insertion order. *)
Lemma run_window_suffix tss : run_window tss `suffix_of` tss.
Proof.
  induction tss as [|ts tss IH] using rev_ind.
  - done.
  - rewrite run_window_snoc. unfold record_edit.
    case_bool_decide; simpl.
    + apply suffix_nil.
    + etrans; [apply evict_suffix|]. by apply suffix_app.
Qed.

Lemma fired_counts_exact dq tss :
  (length dq < ALERT_COUNT)%nat → Forall (λ n, n = ALERT_COUNT) (fired_counts dq tss).
Proof.
  revert dq. induction tss as [|ts tss IH]; intros dq Hlt; simpl.
  - constructor.
  - destruct (record_edit_below dq ts Hlt) as [Hafter Hcount].
    apply Forall_app. split; [|by apply IH].
    destruct (fired (record_edit dq ts)); [|constructor].
    constructor; [by apply Hcount | constructor].
Qed.

(** Nothing is evicted when the front is inside the window. *)
Lemma window_no_eviction dq ts front :
  head (dq ++ [ts]) = Some front → ts - ALERT_WINDOW_SECONDS ≤ front →
  window_after_evict dq ts = dq ++ [ts].
Proof. intros Hhead Hle. unfold window_after_evict. by eapply evict_fixed. Qed.

Lemma record_edit_keep dq ts front :
  head (dq ++ [ts]) = Some front → ts - ALERT_WINDOW_SECONDS ≤ front →
  (S (length dq) < ALERT_COUNT)%nat →
  record_edit dq ts = mkRecorded false (S (length dq)) (dq ++ [ts]).
Proof.
  intros Hhead Hle Hlen.
  assert (Hlen' : length (dq ++ [ts]) = S (length dq))
    by (rewrite length_app; simpl; lia).
  rewrite record_edit_quiet; rewrite (window_no_eviction dq ts front) by done;
    rewrite Hlen'; done.
Qed.

Lemma fired_counts_app dq tss1 tss2 :
  fired_counts dq (tss1 ++ tss2) =
    fired_counts dq tss1 ++
    fired_counts (foldl (λ d t, dq_after (record_edit d t)) dq tss1) tss2.
Proof.
  revert dq. induction tss1 as [|ts tss1 IH]; intros dq; simpl; [done|].
  by rewrite IH, (assoc_L (++)).
Qed.

Lemma fired_counts_snoc tss ts :
  fired_counts [] (tss ++ [ts]) =
    fired_counts [] tss ++
    (if fired (record_edit (run_window tss) ts)
     then [window_size (record_edit (run_window tss) ts)] else []).
Proof. rewrite fired_counts_app. simpl. by rewrite app_nil_r. Qed.

(** Each alert uses up [ALERT_COUNT] of the edits seen so far. *)
Lemma fired_counts_cost dq tss :
  (ALERT_COUNT * length (fired_counts dq tss) +
   length (foldl (λ d t, dq_after (record_edit d t)) dq tss)
   ≤ length dq + length tss)%nat.
Proof.
  revert dq. induction tss as [|ts tss IH]; intros dq; simpl; [lia|].
  specialize (IH (dq_after (record_edit dq ts))).
  pose proof (window_length_le dq ts) as Hle.
  rewrite length_app. unfold record_edit in *.
  case_bool_decide; simpl in *; unfold ALERT_COUNT in *; lia.
Qed.

Lemma fired_counts_few dq tss :
  (length dq + length tss < ALERT_COUNT)%nat → fired_counts dq tss = [].
Proof.
  intros Hfew. pose proof (fired_counts_cost dq tss) as Hcost.
  destruct (fired_counts dq tss) as [|n l]; [done|].
  unfold ALERT_COUNT in *. simpl in Hcost. lia.
Qed.

(** The scenario of five edits one second apart. *)
Lemma five_edits_in_a_row (t : Z) :
  run_window [t; t + 1; t + 2; t + 3] = [t; t + 1; t + 2; t + 3] ∧
  record_edit [t; t + 1; t + 2; t + 3] (t + 4) = mkRecorded true 5 [].
Proof.
  split.
  - unfold run_window. cbn [foldl].
    rewrite record_edit_after_clear. cbn [dq_after].
    rewrite (record_edit_keep [t] (t + 1) t); [|done|window_arith|window_arith].
    cbn [dq_after app].
    rewrite (record_edit_keep [t; t + 1] (t + 2) t); [|done|window_arith|window_arith].
    cbn [dq_after app].
    rewrite (record_edit_keep [t; t + 1; t + 2] (t + 3) t); [|done|window_arith|window_arith].
    done.
  - rewrite record_edit_fired;
      rewrite (window_no_eviction [t; t + 1; t + 2; t + 3] (t + 4) t);
      [done|done|window_arith|window_arith|done|window_arith].
Qed.

(** Lines 180-192 on the state, as [record_edit] on the title's deque. *)
Lemma update_alert_window_effect (name : string) ts (st : State) :
  alerts_log (update_alert_window name ts st) =
    alerts_log st ++
    (if fired (record_edit (deque_of name st) ts)
     then [alert_message name (window_size (record_edit (deque_of name st) ts))] else []) ∧
  recent_edits (update_alert_window name ts st) !! name =
    Some (dq_after (record_edit (deque_of name st) ts)).
Proof.
  unfold update_alert_window, deque_of.
  destruct (fired _); simpl; rewrite ?app_nil_r, lookup_insert_eq; done.
Qed.

Lemma record_edits_effect (name : string) tss (st : State) :
  alerts_log (record_edits name tss st) =
    alerts_log st ++ map (alert_message name) (fired_counts (deque_of name st) tss) ∧
  deque_of name (record_edits name tss st) =
    foldl (λ d t, dq_after (record_edit d t)) (deque_of name st) tss.
Proof.
  revert st. induction tss as [|ts tss IH]; intros st.
  - simpl. by rewrite app_nil_r.
  - change (record_edits name (ts :: tss) st)
      with (record_edits name tss (update_alert_window name ts st)).
    destruct (IH (update_alert_window name ts st)) as [-> ->].
    destruct (update_alert_window_effect name ts st) as [-> Hdq].
    assert (deque_of name (update_alert_window name ts st)
            = dq_after (record_edit (deque_of name st) ts)) as ->
      by (unfold deque_of at 1; by rewrite Hdq).
    cbn [fired_counts foldl]. rewrite map_app, (assoc_L (++)). split; [|done].
    f_equal. f_equal. by destruct (fired _).
Qed.

Lemma run_window_foldl tss :
  foldl (λ d t, dq_after (record_edit d t)) [] tss = run_window tss.
Proof. reflexivity. Qed.

(** A series of edits of a title whose deque is empty. *)
Lemma record_edits_from_empty (name : string) tss (st : State) :
  deque_of name st = [] →
  alerts_log (record_edits name tss st) =
    alerts_log st ++ map (alert_message name) (fired_counts [] tss) ∧
  deque_of name (record_edits name tss st) = run_window tss.
Proof.
  intros Hempty. destruct (record_edits_effect name tss st) as [Hl Hd].
  rewrite Hl, Hd, Hempty. by rewrite run_window_foldl.
Qed.

Lemma alert_of_five (name : string) :
  map (alert_message name) [5%nat] =
    ["ALERT: '" +:+ name +:+ "' had 5 edits in the last 30 minutes."].
Proof.
  cbn [map]. rewrite alert_message_text.
  assert (pretty 5%nat = "5") as -> by (by vm_compute).
  reflexivity.
Qed.

(** The same scenario with a sixth edit right after. *)
Lemma six_edits_in_a_row (t : Z) :
  record_edit (run_window [t; t + 1; t + 2; t + 3; t + 4]) (t + 5) = mkRecorded false 1 [t + 5] ∧
  fired_counts [] [t; t + 1; t + 2; t + 3; t + 4] = [5%nat] ∧
  run_window [t; t + 1; t + 2; t + 3; t + 4] = [] ∧
  fired_counts [] [t; t + 1; t + 2; t + 3; t + 4; t + 5] = [5%nat] ∧
  run_window [t; t + 1; t + 2; t + 3; t + 4; t + 5] = [t + 5].
Proof.
  destruct (five_edits_in_a_row t) as [Hfour Hfifth].
  assert (Hwindow : run_window [t; t + 1; t + 2; t + 3; t + 4] = []).
  { change [t; t + 1; t + 2; t + 3; t + 4] with ([t; t + 1; t + 2; t + 3] ++ [t + 4]).
    by rewrite run_window_snoc, Hfour, Hfifth. }
  assert (Hsixth : record_edit (run_window [t; t + 1; t + 2; t + 3; t + 4]) (t + 5)
                   = mkRecorded false 1 [t + 5]).
  { rewrite Hwindow. apply record_edit_after_clear. }
  assert (Hcounts : fired_counts [] [t; t + 1; t + 2; t + 3; t + 4] = [5%nat]).
  { change [t; t + 1; t + 2; t + 3; t + 4] with ([t; t + 1; t + 2; t + 3] ++ [t + 4]).
    rewrite fired_counts_snoc, Hfour, Hfifth.
    rewrite (fired_counts_few [] [t; t + 1; t + 2; t + 3]) by window_arith. done. }
  split; [exact Hsixth|]. split; [exact Hcounts|]. split; [exact Hwindow|]. split.
  - change [t; t + 1; t + 2; t + 3; t + 4; t + 5]
      with ([t; t + 1; t + 2; t + 3; t + 4] ++ [t + 5]).
    by rewrite fired_counts_snoc, Hcounts, Hsixth.
  - change [t; t + 1; t + 2; t + 3; t + 4; t + 5]
      with ([t; t + 1; t + 2; t + 3; t + 4] ++ [t + 5]).
    by rewrite run_window_snoc, Hsixth.
Qed.

End WindowFacts.

(** C2. Whenever the deque, after the append and the eviction, holds at
    least [ALERT_COUNT] timestamps, the call takes the alert branch: it
    reports that pre-clear length and leaves the deque empty, so that the
    very next call sees a window of size 1 and does not fire. On the
    state, the call appends to the alert log the line
    [ALERT: '<title>' had <n> edits in the last 30 minutes.] where [n] is
    that pre-clear length in decimal, and nothing else; the number can be
    read back from the line; the next edit of the title logs nothing and
    is retained alone. With [ALERT_COUNT = 5], the edits
    [t, t+1, t+2, t+3, t+4] fire on the fifth, the line logged says
    [5 edits], and an edit at [t+5] right after does not fire. *)
Theorem C2_alert_fires_then_clears :
  (∀ (dq : list Z) (ts : Z),
      (ALERT_COUNT ≤ length (window_after_evict dq ts))%nat →
      record_edit dq ts = mkRecorded true (length (window_after_evict dq ts)) [] ∧
      ∀ ts', record_edit (dq_after (record_edit dq ts)) ts' = mkRecorded false 1 [ts']) ∧
  (∀ (name : string) (ts : Z) (st : State),
      (ALERT_COUNT ≤ length (window_after_evict (deque_of name st) ts))%nat →
      alerts_log (update_alert_window name ts st) =
        alerts_log st ++
        ["ALERT: '" +:+ name +:+ "' had " +:+
         pretty (length (window_after_evict (deque_of name st) ts)) +:+
         " edits in the last 30 minutes."] ∧
      recent_edits (update_alert_window name ts st) !! name = Some [] ∧
      ∀ ts', alerts_log (update_alert_window name ts' (update_alert_window name ts st)) =
               alerts_log (update_alert_window name ts st) ∧
             recent_edits (update_alert_window name ts' (update_alert_window name ts st)) !! name
               = Some [ts']) ∧
  (∀ (name : string) (n : nat),
      alert_message name n =
        "ALERT: '" +:+ name +:+ "' had " +:+ pretty n +:+ " edits in the last 30 minutes.") ∧
  (∀ (name : string) (n n' : nat), alert_message name n = alert_message name n' → n = n') ∧
  ALERT_COUNT = 5%nat ∧
  (∀ t : Z,
      record_edit (run_window [t; t + 1; t + 2; t + 3]) (t + 4) = mkRecorded true 5 [] ∧
      record_edit (run_window [t; t + 1; t + 2; t + 3; t + 4]) (t + 5) = mkRecorded false 1 [t + 5]) ∧
  (∀ (name : string) (t : Z) (st : State),
      deque_of name st = [] →
      alerts_log (record_edits name [t; t + 1; t + 2; t + 3; t + 4] st) =
        alerts_log st ++ ["ALERT: '" +:+ name +:+ "' had 5 edits in the last 30 minutes."] ∧
      deque_of name (record_edits name [t; t + 1; t + 2; t + 3; t + 4] st) = [] ∧
      alerts_log (record_edits name [t; t + 1; t + 2; t + 3; t + 4; t + 5] st) =
        alerts_log st ++ ["ALERT: '" +:+ name +:+ "' had 5 edits in the last 30 minutes."] ∧
      deque_of name (record_edits name [t; t + 1; t + 2; t + 3; t + 4; t + 5] st) = [t + 5]).
Proof.
  split; [|split; [|split; [|split; [|split; [done|split]]]]].
  - intros dq ts Hfull. rewrite record_edit_fired by done. split; [done|].
    intros ts'. simpl. apply record_edit_after_clear.
  - intros name ts st Hfull.
    destruct (update_alert_window_effect name ts st) as [Hlog Hdq].
    rewrite record_edit_fired in Hlog, Hdq by done. cbn [fired window_size dq_after] in Hlog, Hdq.
    rewrite alert_message_text in Hlog.
    split; [exact Hlog|]. split; [exact Hdq|]. intros ts'.
    destruct (update_alert_window_effect name ts' (update_alert_window name ts st))
      as [Hlog' Hdq'].
    unfold deque_of in Hlog', Hdq'. rewrite Hdq in Hlog', Hdq'. cbn [default] in Hlog', Hdq'.
    rewrite record_edit_after_clear in Hlog', Hdq'. cbn [fired dq_after] in Hlog', Hdq'.
    rewrite app_nil_r in Hlog'. by split.
  - apply alert_message_text.
  - apply alert_message_count_inj.
  - intros t. destruct (five_edits_in_a_row t) as [Hfour Hfifth].
    destruct (six_edits_in_a_row t) as [Hsixth _].
    split; [by rewrite Hfour|exact Hsixth].
  - intros name t st Hempty.
    destruct (six_edits_in_a_row t) as (_ & Hcounts & Hwindow & Hcounts' & Hwindow').
    destruct (record_edits_from_empty name [t; t + 1; t + 2; t + 3; t + 4] st Hempty)
      as [Hl5 Hd5].
    destruct (record_edits_from_empty name [t; t + 1; t + 2; t + 3; t + 4; t + 5] st Hempty)
      as [Hl6 Hd6].
    rewrite Hcounts, alert_of_five in Hl5. rewrite Hcounts', alert_of_five in Hl6.
    rewrite Hwindow in Hd5. rewrite Hwindow' in Hd6.
    split; [exact Hl5|]. split; [exact Hd5|]. split; [exact Hl6|exact Hd6].
Qed.

Lemma C2_alert_fires_then_clears_witness :
  (alerts_log (update_alert_window "Wikipedia" 104 four_retained) =
     alerts_log four_retained ++
     ["ALERT: '" +:+ "Wikipedia" +:+ "' had " +:+
      pretty (length (window_after_evict (deque_of "Wikipedia" four_retained) 104)) +:+
      " edits in the last 30 minutes."] ∧
   recent_edits (update_alert_window "Wikipedia" 104 four_retained) !! "Wikipedia" = Some [] ∧
   ∀ ts', alerts_log (update_alert_window "Wikipedia" ts'
                        (update_alert_window "Wikipedia" 104 four_retained)) =
            alerts_log (update_alert_window "Wikipedia" 104 four_retained) ∧
          recent_edits (update_alert_window "Wikipedia" ts'
                          (update_alert_window "Wikipedia" 104 four_retained)) !! "Wikipedia"
            = Some [ts']) ∧
  alerts_log (update_alert_window "Wikipedia" 104 four_retained) =
    ["ALERT: 'Wikipedia' had 5 edits in the last 30 minutes."].
Proof.
  split; [|by vm_compute].
  apply (proj1 (proj2 C2_alert_fires_then_clears) "Wikipedia" 104 four_retained).
  vm_compute. lia.
Defined.

(** C3. Every insertion of [ts] evicts against the cutoff
    [ts - ALERT_WINDOW_SECONDS]: what is removed is a prefix of the deque
    (with [ts] appended) all of whose elements lie strictly below the
    cutoff, and the element then at the front, if any, does not. With the
    window of 1800 seconds, inserting [t] and then [t + 1801] leaves
    exactly [t + 1801]. *)
Theorem C3_eviction_strictly_below_cutoff :
  (∀ (dq : list Z) (ts : Z), ∃ removed,
      dq ++ [ts] = removed ++ window_after_evict dq ts ∧
      Forall (λ t, t < ts - ALERT_WINDOW_SECONDS) removed ∧
      ∀ front, head (window_after_evict dq ts) = Some front →
               ts - ALERT_WINDOW_SECONDS ≤ front) ∧
  ALERT_WINDOW_SECONDS = 1800 ∧
  (∀ t : Z, run_window [t; t + 1801] = [t + 1801]).
Proof.
  split; [|split; [done|]].
  - intros dq ts. unfold window_after_evict.
    destruct (evict_split (ts - ALERT_WINDOW_SECONDS) (dq ++ [ts])) as (removed & Heq & Hall).
    exists removed. split; [done|]. split; [done|].
    intros front. apply evict_head.
  - intros t. unfold run_window, record_edit, window_after_evict, ALERT_WINDOW_SECONDS. simpl.
    destruct (Z.ltb_spec t (t - 60 * 30)); [lia|]. simpl.
    destruct (Z.ltb_spec t (t + 1801 - 60 * 30)); [|lia]. simpl.
    destruct (Z.ltb_spec (t + 1801) (t + 1801 - 60 * 30)); [lia|]. done.
Qed.

(** C4 (as stated, refuted). After the edits 3000 and 0, an edit at 4000
    leaves 0 in the deque although [0 < 4000 - ALERT_WINDOW_SECONDS]: the
    front element 3000 is inside the window and the loop stops there. *)
Lemma C4_stale_entry_behind_front :
  window_after_evict (run_window [3000; 0]) 4000 = [3000; 0; 4000] ∧
  ¬ Forall (λ t, 4000 - ALERT_WINDOW_SECONDS ≤ t) (window_after_evict (run_window [3000; 0]) 4000).
Proof.
  split; [by vm_compute|].
  intros H. assert (Hw : window_after_evict (run_window [3000; 0]) 4000 = [3000; 0; 4000])
    by (by vm_compute).
  rewrite Hw in H. inversion H as [|? ? _ Htail]. inversion Htail as [|? ? Hbad _].
  vm_compute in Hbad. by apply Hbad.
Qed.

(** C4 (amended). At every evaluation point after the eviction, the
    timestamp at the front of the deque is no older than the newest
    insertion minus [ALERT_WINDOW_SECONDS]; and when the timestamps have
    arrived in non-decreasing order, so is every retained timestamp. *)
Theorem C4_retained_within_window (tss : list Z) (ts : Z) :
  (∀ front, head (window_after_evict (run_window tss) ts) = Some front →
            ts - ALERT_WINDOW_SECONDS ≤ front) ∧
  (Sorted Z.le (tss ++ [ts]) →
   Forall (λ t, ts - ALERT_WINDOW_SECONDS ≤ t) (window_after_evict (run_window tss) ts)).
Proof.
  split; [intros front; apply evict_head|].
  intros Hsorted. apply (Sorted_StronglySorted _) in Hsorted.
  destruct (run_window_suffix tss) as [older Holder].
  rewrite Holder in Hsorted at 1. rewrite <- (assoc_L (++)) in Hsorted.
  apply StronglySorted_app_1_r in Hsorted.
  unfold window_after_evict.
  pose proof (evict_head (ts - ALERT_WINDOW_SECONDS) (run_window tss ++ [ts])) as Hfront.
  destruct (evict_suffix (ts - ALERT_WINDOW_SECONDS) (run_window tss ++ [ts])) as [gone Hgone].
  rewrite Hgone in Hsorted. apply StronglySorted_app_1_r in Hsorted.
  destruct (evict _ _) as [|front rest]; [constructor|].
  specialize (Hfront front eq_refl).
  apply StronglySorted_cons in Hsorted as [Hrest _].
  constructor; [done|].
  eapply Forall_impl; [exact Hrest|]. simpl. intros t Hle. lia.
Qed.

Lemma C4_retained_within_window_witness :
  Forall (λ t, 2000 - ALERT_WINDOW_SECONDS ≤ t) (window_after_evict (run_window [100; 150]) 2000).
Proof.
  apply (proj2 (C4_retained_within_window [100; 150] 2000)).
  repeat constructor; lia.
Defined.

(** ** The metrics dictionary *)

Section MetricsFacts.

Implicit Types (st : State) (ev : ChangeEvent) (clock now : Q) (name : string).

Lemma healthy_init t0 : healthy (init t0).
Proof.
  intros name Hin. exists (mkMetrics 0 None JNull JNull). split; [|by eexists].
  simpl. unfold initial_metrics. rewrite lookup_gset_to_gmap.
  by rewrite option_guard_True.
Qed.

(** The rows of a flush: they only grow the CSV file. *)
Lemma append_all_rows_healthy (titles : list string) st :
  (∀ name, name ∈ titles →
     ∃ m, metrics st !! name = Some m ∧ is_Some (comment_cell (last_comment m))) →
  ∃ rows, append_all_rows titles st =
    Continue (mkState (metrics st) (recent_edits st) (last_flush st)
                      (metrics_csv st ++ rows)
                      (snapshot_json st) (alerts_log st) (stdout st)) ∧
    map row_title rows = titles.
Proof.
  revert st. induction titles as [|t rest IH]; intros st Hall; simpl.
  - exists []. rewrite app_nil_r. by destruct st.
  - destruct (Hall t) as (m & Hm & [c Hc]); [by left|].
    rewrite Hm. unfold append_metrics_row. rewrite Hc.
    edestruct IH as (rows & -> & Htitles).
    { intros name Hin. simpl. apply Hall. by right. }
    simpl. eexists (_ :: rows). rewrite <- (assoc_L (++)). simpl.
    split; [done|]. by rewrite Htitles.
Qed.

End MetricsFacts.

(** C1 (the code at the failing input). Two decoded events for a tracked
    title, the first with its timestamp in milliseconds: line 174 counts
    it, line 175 raises, no [except] clause applies and the exception
    leaves [run_stream]. The second event is never processed: the counter
    stands at 1 after a sequence of 2 events. *)
Lemma C1_unconvertible_timestamp_aborts :
  length [(edit_in_milliseconds, 0%Q, 0%Q); (edit_by_alice, 0%Q, 0%Q)] = 2%nat ∧
  ∃ st, process_events (decoded [(edit_in_milliseconds, 0%Q, 0%Q); (edit_by_alice, 0%Q, 0%Q)])
                       (init 0) = Raise FromTimestampError st ∧
        total_edits <$> metrics st !! "Wikipedia" = Some 1%nat.
Proof. split; [done|]. eexists. split; by vm_compute. Qed.

(** C5 (the code at the failing input). After Alice's edit, an edit by
    Carol with its timestamp in milliseconds arrives last: line 175
    raises before lines 176-177 run, so the entry still names Alice, the
    user of the event before the last, when the exception leaves
    [run_stream]. *)
Lemma C5_unconvertible_last_event :
  ∃ st, process_events (decoded [(edit_by_alice, 0%Q, 0%Q); (edit_in_milliseconds, 0%Q, 0%Q)])
                       (init 0) = Raise FromTimestampError st ∧
        last_user <$> metrics st !! "Wikipedia" = Some (JStr "Alice") ∧
        user edit_in_milliseconds = Some "Carol".
Proof. eexists. split; [by vm_compute|]. split; by vm_compute. Qed.

(** ** The loop: skipped lines, flushes, reconnects, interrupts *)

Section LoopFacts.

Variable json_loads : string → Loaded.

Implicit Types (st : State) (c : Mode * State).

Lemma run_app c (l1 l2 : list Input) :
  run json_loads c (l1 ++ l2) =
    match run json_loads c l1 with
    | Some c' => run json_loads c' l2
    | None => None
    end.
Proof.
  revert c. induction l1 as [|i l1 IH]; intros c; simpl; [done|].
  destruct (step json_loads c i); [apply IH|done].
Qed.

(** A line without the [data:] prefix reaches the first [continue]s only. *)
Lemma process_line_not_data raw_line clock now st :
  String.prefix "data:" raw_line = false →
  process_line json_loads raw_line clock now st = Continue st.
Proof.
  intros Hprefix. unfold process_line. rewrite Hprefix. simpl.
  by destruct (String.eqb raw_line "").
Qed.

(** When the flush is due at line 196, it writes one row per tracked
    title, overwrites the snapshot and restarts the timer. *)
Lemma flush_periodically_due now st :
  healthy st →
  Qle_bool (inject_Z FLUSH_EVERY_SECONDS) (now - last_flush st) = true →
  ∃ rows, flush_periodically now st =
    Continue (mkState (metrics st) (recent_edits st) now (metrics_csv st ++ rows)
                      (metrics st) (alerts_log st) (stdout st)) ∧
    map row_title rows = elements TRACKED_TITLES.
Proof.
  intros Hst Hdue. unfold flush_periodically. rewrite Hdue.
  destruct (append_all_rows_healthy (elements TRACKED_TITLES) st) as (rows & -> & Htitles).
  { intros name Hin. apply Hst. by apply elem_of_elements. }
  exists rows. split; [reflexivity | exact Htitles].
Qed.

Lemma after_errors_frame (errors : list string) st :
  metrics (after_errors errors st) = metrics st ∧
  recent_edits (after_errors errors st) = recent_edits st ∧
  snapshot_json (after_errors errors st) = snapshot_json st ∧
  metrics_csv (after_errors errors st) = metrics_csv st ∧
  alerts_log (after_errors errors st) =
    alerts_log st ++ map (λ e, "INFO: reconnecting after error: " +:+ e) errors.
Proof.
  unfold after_errors. revert st. induction errors as [|e errors IH]; intros st; simpl.
  - by rewrite app_nil_r.
  - destruct (IH (log_alert ("INFO: reconnecting after error: " +:+ e) st))
      as (-> & -> & -> & -> & ->).
    simpl. by rewrite <- (assoc_L (++)).
Qed.

Lemma run_failed_attempts (errors : list string) st :
  run json_loads (Connecting, st) (failed_attempts errors) =
    Some (Connecting, after_errors errors st).
Proof.
  revert st. induction errors as [|e errors IH]; intros st; [done|].
  simpl. apply IH.
Qed.

(** The sibling path: an interrupt caught by line 206 stops the loop after
    a snapshot of the current dictionary. *)
Lemma interrupt_inside_try st :
  step json_loads (Streaming, st) Interrupt = step json_loads (Connecting, st) Interrupt ∧
  ∃ st', step json_loads (Streaming, st) Interrupt = Some (Stopped, st') ∧
         snapshot_json st' = metrics st ∧ metrics st' = metrics st ∧
         stdout st' = stdout st ++ ["Stopped. Snapshot saved."].
Proof. split; [done|]. by eexists. Qed.

(** Line 153 onwards on a [data:] line that is not the [[DONE]] marker:
    what happens next is decided by [json.loads]. *)
Lemma process_line_data raw_line clock now st :
  String.prefix "data:" raw_line = true →
  payload raw_line ≠ "[DONE]" →
  process_line json_loads raw_line clock now st =
    match json_loads (payload raw_line) with
    | NotJSON => Continue st
    | TooDeep => Raise RecursionError st
    | TooManyDigits => Raise ValueError st
    | Decoded event => process_event event clock now st
    end.
Proof.
  intros Hprefix Hdone. unfold process_line. fold (payload raw_line). rewrite Hprefix.
  destruct raw_line as [|c rest]; [done|]. cbn [String.eqb negb].
  by destruct (String.eqb_spec (payload (String c rest)) "[DONE]").
Qed.

Lemma step_line raw_line clock now st :
  step json_loads (Streaming, st) (Line raw_line clock now) =
    match process_line json_loads raw_line clock now st with
    | Continue st' => Some (Streaming, st')
    | Raise e st' => Some (Crashed e, st')
    end.
Proof. reflexivity. Qed.

(** The case line 159 handles: a [data:] line whose payload [json.loads]
    rejects with [JSONDecodeError] ends its pass at the [continue] of
    line 160, with the state exactly as it was. *)
Lemma rejected_payload_skipped raw_line clock now st :
  String.prefix "data:" raw_line = true →
  json_loads (payload raw_line) = NotJSON →
  process_line json_loads raw_line clock now st = Continue st ∧
  step json_loads (Streaming, st) (Line raw_line clock now) = Some (Streaming, st).
Proof.
  intros Hprefix Hbad.
  assert (process_line json_loads raw_line clock now st = Continue st) as Hskip.
  { unfold process_line. fold (payload raw_line). rewrite Hprefix, Hbad. simpl.
    destruct (String.eqb raw_line ""); [done|].
    by destruct (String.eqb _ "[DONE]"). }
  split; [done|]. by rewrite step_line, Hskip.
Qed.

(** The cases it does not handle: the other two exceptions of
    [json.loads] leave the loop body and [run_stream]. *)
Lemma unhandled_loads_error raw_line clock now st :
  String.prefix "data:" raw_line = true →
  payload raw_line ≠ "[DONE]" →
  (json_loads (payload raw_line) = TooDeep →
   step json_loads (Streaming, st) (Line raw_line clock now)
     = Some (Crashed RecursionError, st)) ∧
  (json_loads (payload raw_line) = TooManyDigits →
   step json_loads (Streaming, st) (Line raw_line clock now)
     = Some (Crashed ValueError, st)).
Proof.
  intros Hprefix Hdone.
  split; intros Hloads; by rewrite step_line, process_line_data, Hloads.
Qed.

End LoopFacts.

(** ** The reference decoder on lists that are never closed *)

Section DeepNesting.

Implicit Types (n fuel depth : nat).

Lemma brackets_length n : String.length (brackets n) = n.
Proof. induction n as [|n IH]; [done|]. cbn [brackets String.length]. by rewrite IH. Qed.

Lemma skip_ws_brackets n : JsonRef.skip_ws (brackets n) = brackets n.
Proof. by destruct n. Qed.

(** More opening brackets than levels left: the scanner gives up. *)
Lemma value_brackets_deep depth n fuel :
  (depth < n)%nat → (2 * depth < fuel)%nat →
  JsonRef.value fuel depth (brackets n) = JsonRef.Deep.
Proof.
  revert n fuel. induction depth as [|depth IH]; intros n fuel Hn Hfuel.
  - destruct n as [|n]; [lia|]. destruct fuel as [|fuel]; [lia|]. reflexivity.
  - destruct n as [|[|n]]; [lia|lia|].
    destruct fuel as [|[|fuel]]; [lia|lia|].
    change (JsonRef.value (S (S fuel)) (S depth) (brackets (S (S n))))
      with (JsonRef.bind
              (JsonRef.bind (JsonRef.value fuel depth (brackets (S n)))
                 (λ v r1,
                    match JsonRef.skip_ws r1 with
                    | String d r2 =>
                        if Ascii.eqb d "]" then JsonRef.Ok [v] r2
                        else if Ascii.eqb d "," then
                          JsonRef.bind (JsonRef.items fuel depth (JsonRef.skip_ws r2))
                                       (λ vs r3, JsonRef.Ok (v :: vs) r3)
                        else JsonRef.Malformed
                    | EmptyString => JsonRef.Malformed
                    end))
              (λ vs r, JsonRef.Ok (JArr vs) r)).
    rewrite IH by lia. reflexivity.
Qed.

(** Whatever the levels left, brackets that are never closed are not a
    JSON value. *)
Lemma value_brackets_not_ok n fuel depth :
  (0 < n)%nat →
  JsonRef.value fuel depth (brackets n) = JsonRef.Deep ∨
  JsonRef.value fuel depth (brackets n) = JsonRef.Malformed.
Proof.
  revert fuel depth. induction n as [|n IH]; intros fuel depth Hn; [lia|].
  destruct fuel as [|fuel]; [by right|].
  destruct depth as [|depth]; [by left|].
  destruct n as [|n]; [by right|].
  destruct fuel as [|fuel]; [by right|].
  change (JsonRef.value (S (S fuel)) (S depth) (brackets (S (S n))))
    with (JsonRef.bind
            (JsonRef.bind (JsonRef.value fuel depth (brackets (S n)))
               (λ v r1,
                  match JsonRef.skip_ws r1 with
                  | String d r2 =>
                      if Ascii.eqb d "]" then JsonRef.Ok [v] r2
                      else if Ascii.eqb d "," then
                        JsonRef.bind (JsonRef.items fuel depth (JsonRef.skip_ws r2))
                                     (λ vs r3, JsonRef.Ok (v :: vs) r3)
                      else JsonRef.Malformed
                  | EmptyString => JsonRef.Malformed
                  end))
            (λ vs r, JsonRef.Ok (JArr vs) r)).
  destruct (IH fuel depth) as [-> | ->]; [lia|by left|by right].
Qed.

Lemma loads_brackets (limit n : nat) :
  (0 < n)%nat →
  (∀ event, JsonRef.loads_within limit (brackets n) ≠ Decoded event) ∧
  ((limit < n)%nat → JsonRef.loads_within limit (brackets n) = TooDeep).
Proof.
  intros Hn. unfold JsonRef.loads_within. rewrite skip_ws_brackets, brackets_length. split.
  - intros event. by destruct (value_brackets_not_ok n (2 * n + 2) limit Hn) as [-> | ->].
  - intros Hlimit. by rewrite value_brackets_deep by lia.
Qed.

Lemma deeply_nested_payload :
  String.prefix "data:" deeply_nested = true ∧
  payload deeply_nested = brackets 2000 ∧
  payload deeply_nested ≠ "[DONE]".
Proof.
  assert (payload deeply_nested = brackets 2000) as Hpayload by (by vm_compute).
  split; [by vm_compute|]. split; [exact Hpayload|].
  rewrite Hpayload. intros Heq. apply (f_equal String.length) in Heq.
  rewrite brackets_length in Heq. vm_compute in Heq. discriminate Heq.
Qed.

End DeepNesting.

(** C6 (the code at the failing input). The line [data: ] followed by
    2000 opening brackets carries a payload that is not JSON, whatever
    nesting the interpreter allows: no value is decoded from it. Yet
    whenever fewer than 2000 levels are left, as under the default
    recursion limit of 1000, [json.loads] raises [RecursionError] on it
    and not [JSONDecodeError]; line 159 does not catch it, and the
    exception leaves the loop body and [run_stream], which takes no
    further input. *)
Theorem C6_unclosed_brackets_end_run (limit : nat) (clock now : Q) (st : State) :
  (limit < 2000)%nat →
  (∀ depth event, JsonRef.loads_within depth (payload deeply_nested) ≠ Decoded event) ∧
  JsonRef.loads_within limit (payload deeply_nested) = TooDeep ∧
  process_line (JsonRef.loads_within limit) deeply_nested clock now st
    = Raise RecursionError st ∧
  step (JsonRef.loads_within limit) (Streaming, st) (Line deeply_nested clock now)
    = Some (Crashed RecursionError, st) ∧
  ∀ i, step (JsonRef.loads_within limit) (Crashed RecursionError, st) i = None.
Proof.
  intros Hlimit. destruct deeply_nested_payload as (Hprefix & Hpayload & Hdone).
  assert (JsonRef.loads_within limit (payload deeply_nested) = TooDeep) as Hdeep.
  { rewrite Hpayload. apply loads_brackets; lia. }
  assert (process_line (JsonRef.loads_within limit) deeply_nested clock now st
          = Raise RecursionError st) as Hline.
  { by rewrite process_line_data, Hdeep. }
  split; [|split; [exact Hdeep|split; [exact Hline|split]]].
  - intros depth event. rewrite Hpayload. apply loads_brackets. lia.
  - by rewrite step_line, Hline.
  - intros i. reflexivity.
Qed.

Lemma C6_unclosed_brackets_end_run_witness :
  (∀ depth event, JsonRef.loads_within depth (payload deeply_nested) ≠ Decoded event) ∧
  JsonRef.loads (payload deeply_nested) = TooDeep ∧
  process_line JsonRef.loads deeply_nested 0 100 (init 0) = Raise RecursionError (init 0) ∧
  step JsonRef.loads (Streaming, init 0) (Line deeply_nested 0 100)
    = Some (Crashed RecursionError, init 0) ∧
  ∀ i, step JsonRef.loads (Crashed RecursionError, init 0) i = None.
Proof.
  apply (C6_unclosed_brackets_end_run (JsonRef.RECURSION_LIMIT - JsonRef.LEVELS_IN_USE)
           0 100 (init 0)).
  vm_compute. lia.
Defined.

(** C7 (the code at the failing input). 25 seconds after the last flush
    the condition of line 196 holds, yet reading an SSE line without the
    [data:] prefix, or the line of an event for an untracked title, leaves
    the state untouched: no row is appended and the flush timer is not
    restarted, because the [continue]s of lines 147-165 skip lines
    195-200. *)
Theorem C7_flush_due_but_line_skipped :
  Qle_bool (inject_Z FLUSH_EVERY_SECONDS) (25 - last_flush (init 0)) = true ∧
  (∀ json_loads, step json_loads (Streaming, init 0) (Line "event: message" 25 25)
                 = Some (Streaming, init 0)) ∧
  step JsonRef.loads (Streaming, init 0) (Line (feed_line edit_elsewhere) 25 25)
    = Some (Streaming, init 0).
Proof. split; [done|]. split; [done|]. by vm_compute. Qed.

(** C8 (the code at the failing input). An interrupt that arrives while
    the network handler sleeps (line 205) is raised inside an [except]
    clause, where the [except KeyboardInterrupt] of the same [try] does
    not apply: it leaves [run_stream] with no snapshot written and
    nothing printed. After one tracked edit, a transport error and such an
    interrupt, the snapshot file still shows the counter at 0. *)
Theorem C8_interrupt_during_backoff_escapes :
  (∀ json_loads st e,
      run json_loads (Streaming, st) [TransportError e; Interrupt] =
        Some (Crashed KeyboardInterrupt,
              log_alert ("INFO: reconnecting after error: " +:+ e) st)) ∧
  ∃ st, run JsonRef.loads (Connecting, init 0)
            [Connected; Line (feed_line edit_by_alice) 1 1;
             TransportError "ConnectionError()"; Interrupt]
          = Some (Crashed KeyboardInterrupt, st) ∧
        total_edits <$> metrics st !! "Wikipedia" = Some 1%nat ∧
        total_edits <$> snapshot_json st !! "Wikipedia" = Some 0%nat ∧
        stdout st = [].
Proof.
  split; [done|]. eexists. split; [by vm_compute|]. split; [by vm_compute|].
  split; by vm_compute.
Qed.

(** C9. A transport failure, met while connecting or while streaming,
    followed by its back-off, by any number of further failed attempts
    and by a successful connection, brings the loop back to streaming
    with the metrics dictionary and the deques exactly as they were; only
    the [INFO] lines of the errors are added to the alert log. *)
Theorem C9_reconnect_keeps_metrics (json_loads : string → Loaded)
    (st : State) (e : string) (errors : list string) :
  run json_loads (Streaming, st)
      ([TransportError e; SleepDone] ++ failed_attempts errors ++ [Connected])
    = Some (Streaming, after_errors (e :: errors) st) ∧
  run json_loads (Connecting, st)
      ([TransportError e; SleepDone] ++ failed_attempts errors ++ [Connected])
    = Some (Streaming, after_errors (e :: errors) st) ∧
  metrics (after_errors (e :: errors) st) = metrics st ∧
  recent_edits (after_errors (e :: errors) st) = recent_edits st ∧
  alerts_log (after_errors (e :: errors) st) =
    alerts_log st ++ map (λ e, "INFO: reconnecting after error: " +:+ e) (e :: errors).
Proof.
  assert (∀ st0, run json_loads (Connecting, st0) (failed_attempts errors ++ [Connected])
                 = Some (Streaming, after_errors errors st0)) as Hretry.
  { intros st0. by rewrite run_app, run_failed_attempts. }
  destruct (after_errors_frame (e :: errors) st) as (Hm & Hr & _ & _ & Ha).
  split; [apply Hretry|]. split; [apply Hretry|]. done.
Qed.

(** ** The alert rule along a whole run *)

Section AlertRuleFacts.

Variable json_loads : string → Loaded.

Implicit Types (st : State) (name : string).

Lemma append_all_rows_frame (titles : list string) st :
  recent_edits (outcome_state (append_all_rows titles st)) = recent_edits st ∧
  alerts_log (outcome_state (append_all_rows titles st)) = alerts_log st.
Proof.
  revert st. induction titles as [|t rest IH]; intros st; simpl; [done|].
  destruct (metrics st !! t) as [m|]; [|done].
  unfold append_metrics_row. destruct (comment_cell (last_comment m)); [|done].
  destruct (IH (mkState (metrics st) (recent_edits st) (last_flush st)
                        (metrics_csv st ++ [mkRow t (total_edits m) (default "" (last_edit_utc m))
                                                  (or_empty (last_user m)) j])
                        (snapshot_json st) (alerts_log st) (stdout st))) as [-> ->].
  done.
Qed.

Lemma flush_periodically_frame (now : Q) st :
  recent_edits (outcome_state (flush_periodically now st)) = recent_edits st ∧
  alerts_log (outcome_state (flush_periodically now st)) = alerts_log st.
Proof.
  unfold flush_periodically. destruct (Qle_bool _ _); [|done].
  pose proof (append_all_rows_frame (elements TRACKED_TITLES) st) as Hframe.
  destruct (append_all_rows _ st); simpl in *; done.
Qed.

Lemma update_alert_window_rule name (ts : Z) st :
  windows_below st → alerts_exact st →
  windows_below (update_alert_window name ts st) ∧
  alerts_exact (update_alert_window name ts st).
Proof.
  intros Hbelow Hexact. unfold update_alert_window.
  assert (length (default [] (recent_edits st !! name)) < ALERT_COUNT)%nat as Hdq.
  { destruct (recent_edits st !! name) as [dq|] eqn:Hlook; simpl.
    - by eapply Hbelow.
    - unfold ALERT_COUNT. lia. }
  destruct (record_edit_below _ ts Hdq) as [Hafter Hcount].
  assert (windows_below
            (set_recent_edits
               (<[name := dq_after (record_edit (default [] (recent_edits st !! name)) ts)]>) st))
    as Hbelow'.
  { intros other dq. simpl. destruct (decide (name = other)) as [<-|Hne].
    - rewrite lookup_insert_eq. by intros [= <-].
    - rewrite lookup_insert_ne by done. apply Hbelow. }
  destruct (fired _) eqn:Hfired; [|done].
  split; [done|]. unfold alerts_exact. simpl. apply Forall_app. split; [done|].
  constructor; [|constructor]. right. exists name. by rewrite Hcount.
Qed.

Lemma process_tracked_rule name (members : list (string * json)) (clock now : Q) st :
  windows_below st → alerts_exact st →
  windows_below (outcome_state (process_tracked name members clock now st)) ∧
  alerts_exact (outcome_state (process_tracked name members clock now st)).
Proof.
  intros Hbelow Hexact. unfold process_tracked.
  destruct (metrics st !! name) as [m|]; [|done].
  destruct (timestamp_value _) as [z|]; [|done].
  destruct (fromtimestamp_isoformat z) as [iso|]; [|done].
  match goal with
  | |- context [flush_periodically now ?s] =>
      destruct (flush_periodically_frame now s) as [Hr Ha];
      destruct (update_alert_window_rule name z
                  (set_metrics (<[name := mkMetrics (S (total_edits m)) (Some iso)
                                            (dict_get "user" members)
                                            (dict_get "comment" members)]>) st))
        as [Hb He]; [done|done|]
  end.
  split.
  - intros other dq. rewrite Hr. apply Hb.
  - unfold alerts_exact. rewrite Ha. apply He.
Qed.

Lemma process_line_rule (raw_line : string) (clock now : Q) st :
  windows_below st → alerts_exact st →
  windows_below (outcome_state (process_line json_loads raw_line clock now st)) ∧
  alerts_exact (outcome_state (process_line json_loads raw_line clock now st)).
Proof.
  intros Hbelow Hexact. unfold process_line.
  destruct (String.eqb raw_line ""); [done|].
  destruct (negb _); [done|]. simpl.
  destruct (String.eqb _ "[DONE]"); [done|].
  destruct (json_loads _) as [event| | |]; [|done|done|done].
  unfold process_event.
  destruct event as [| | | | |members]; try done.
  destruct (dict_get "title" members); try done.
  case_bool_decide; [|done]. by apply process_tracked_rule.
Qed.

Lemma step_rule (mode mode' : Mode) st st' (i : Input) :
  step json_loads (mode, st) i = Some (mode', st') →
  windows_below st → alerts_exact st → windows_below st' ∧ alerts_exact st'.
Proof.
  intros Hstep Hbelow Hexact.
  assert (∀ e, alerts_exact (log_alert ("INFO: reconnecting after error: " +:+ e) st)) as Hinfo.
  { intros e. unfold alerts_exact. simpl. apply Forall_app. split; [done|].
    constructor; [|constructor]. left. by exists e. }
  destruct mode, i; simpl in Hstep; try discriminate;
    try (injection Hstep as <- <-; by auto).
  pose proof (process_line_rule raw_line clock now st Hbelow Hexact) as Hline.
  destruct (process_line json_loads raw_line clock now st);
    injection Hstep as <- <-; exact Hline.
Qed.

Lemma run_rule (inputs : list Input) (mode mode' : Mode) st st' :
  run json_loads (mode, st) inputs = Some (mode', st') →
  windows_below st → alerts_exact st → windows_below st' ∧ alerts_exact st'.
Proof.
  revert mode st. induction inputs as [|i inputs IH]; intros mode st Hrun Hbelow Hexact.
  - by injection Hrun as <- <-.
  - cbn [run] in Hrun.
    destruct (step json_loads (mode, st) i) as [[mode1 st1]|] eqn:Hstep; [|done].
    destruct (step_rule _ _ _ _ _ Hstep Hbelow Hexact) as [Hb1 He1].
    by eapply IH.
Qed.

End AlertRuleFacts.

(** C10. Along every series of edits of one title, starting from the
    empty deque, the deque left by each call holds fewer than
    [ALERT_COUNT] timestamps, and every alert raised on the way reports
    exactly [ALERT_COUNT]. The same holds in every state [run_stream] can
    reach: each deque is below the threshold and each alert in the log
    reports [ALERT_COUNT] edits. *)
Theorem C10_window_below_threshold :
  (∀ tss : list Z,
      (length (run_window tss) < ALERT_COUNT)%nat ∧
      Forall (λ n, n = ALERT_COUNT) (fired_counts [] tss)) ∧
  (∀ (json_loads : string → Loaded) (t0 : Q) (inputs : list Input)
     (mode : Mode) (st : State),
      run json_loads (Connecting, init t0) inputs = Some (mode, st) →
      windows_below st ∧ alerts_exact st).
Proof.
  split.
  - intros tss. split; [apply run_window_below|].
    apply fired_counts_exact. unfold ALERT_COUNT. simpl. lia.
  - intros json_loads t0 inputs mode st Hrun.
    eapply run_rule; [exact Hrun| |].
    + intros name dq. simpl. by rewrite lookup_empty.
    + constructor.
Qed.

Lemma C10_window_below_threshold_witness :
  ∃ mode st, run JsonRef.loads (Connecting, init 0) burst = Some (mode, st) ∧
             alerts_log st = ["ALERT: 'Wikipedia' had 5 edits in the last 30 minutes."] ∧
             windows_below st ∧ alerts_exact st.
Proof.
  eexists _, _. split; [by vm_compute|]. split; [by vm_compute|].
  eapply (proj2 C10_window_below_threshold JsonRef.loads 0%Q burst). by vm_compute.
Defined.

(** * Further properties *)

(** ** The alert window, continued *)

Section WindowRuns.

Implicit Types (dq tss : list Z) (ts : Z).

Lemma head_snoc_elem dq ts :
  ∃ front, head (dq ++ [ts]) = Some front ∧ front ∈ dq ++ [ts].
Proof.
  destruct dq as [|front rest]; simpl.
  - exists ts. split; [done|]. by left.
  - exists front. split; [done|]. by left.
Qed.

End WindowRuns.

(** X1. Edits of one title whose timestamps all lie within one alert
    window of each other, in any order: nothing is evicted, every fifth
    edit raises an alert and empties the deque. After [5 q + r] such edits
    ([r < 5]) exactly [q] alerts were raised and [r] timestamps are
    retained. *)
Theorem burst_fires_every_fifth_edit (tss : list Z) :
  within_one_window tss →
  ∃ q r : nat, length tss = (ALERT_COUNT * q + r)%nat ∧ (r < ALERT_COUNT)%nat ∧
               length (fired_counts [] tss) = q ∧
               run_window tss = drop (ALERT_COUNT * q) tss.
Proof.
  induction tss as [|ts tss IH] using rev_ind; intros Hclose.
  - exists 0%nat, 0%nat. unfold ALERT_COUNT. simpl. repeat split; lia.
  - destruct IH as (q & r & Hlen & Hr & Hfires & Hwin).
    { intros a b Ha Hb. apply Hclose; apply elem_of_app; by left. }
    assert (length (run_window tss) = r) as Hretained.
    { rewrite Hwin, length_drop. lia. }
    assert (window_after_evict (run_window tss) ts = run_window tss ++ [ts]) as Hkeep.
    { destruct (head_snoc_elem (run_window tss) ts) as (front & Hhead & Hin).
      apply (window_no_eviction _ _ front Hhead).
      apply Hclose; [|apply elem_of_app; right; by left].
      apply elem_of_app in Hin as [Hin|Hin]; apply elem_of_app; [left|by right].
      destruct (run_window_suffix tss) as [older Holder]. rewrite Holder.
      apply elem_of_app. by right. }
    rewrite run_window_snoc, fired_counts_snoc. unfold record_edit. rewrite Hkeep.
    rewrite !length_app, Hfires. simpl.
    case_bool_decide as Hfull; simpl.
    + exists (S q), 0%nat. unfold ALERT_COUNT in *.
      repeat split; [lia|lia|lia|].
      rewrite drop_ge; [done|]. rewrite length_app. simpl. lia.
    + exists q, (S r). unfold ALERT_COUNT in *.
      repeat split; [lia|lia|lia|].
      rewrite drop_app_le by lia. rewrite Hwin. f_equal.
Qed.

Lemma burst_fires_every_fifth_edit_witness :
  ∃ q r : nat, length [50; 10; 30; 20; 40; 60; 5] = (ALERT_COUNT * q + r)%nat ∧
               (r < ALERT_COUNT)%nat ∧
               length (fired_counts [] [50; 10; 30; 20; 40; 60; 5]) = q ∧
               run_window [50; 10; 30; 20; 40; 60; 5] = drop (ALERT_COUNT * q) [50; 10; 30; 20; 40; 60; 5].
Proof.
  apply (burst_fires_every_fifth_edit [50; 10; 30; 20; 40; 60; 5]).
  intros a b Ha Hb. unfold ALERT_WINDOW_SECONDS.
  repeat (apply elem_of_cons in Ha as [->|Ha]); [..|by apply elem_of_nil in Ha];
    repeat (apply elem_of_cons in Hb as [->|Hb]); try (by apply elem_of_nil in Hb); lia.
Defined.

(** X2. Whatever the timestamps and their order, every alert is paid for
    by [ALERT_COUNT] edits that no other alert counts: [ALERT_COUNT] times
    the number of alerts, plus the timestamps still retained, never
    exceeds the number of edits. In particular fewer than [ALERT_COUNT]
    edits raise no alert. *)
Theorem alerts_bounded_by_edits (tss : list Z) :
  (ALERT_COUNT * length (fired_counts [] tss) + length (run_window tss) ≤ length tss)%nat ∧
  ((length tss < ALERT_COUNT)%nat → fired_counts [] tss = []).
Proof.
  pose proof (fired_counts_cost [] tss) as Hcost. simpl in Hcost.
  split; [exact Hcost|].
  intros Hfew. destruct (fired_counts [] tss) as [|n l]; [done|].
  unfold run_window, ALERT_COUNT in *. simpl in Hcost. lia.
Qed.

Lemma alerts_bounded_by_edits_witness : fired_counts [] [7; 7; 9000; 3] = [].
Proof.
  apply (proj2 (alerts_bounded_by_edits [7; 7; 9000; 3])).
  unfold ALERT_COUNT. simpl. lia.
Defined.

(** X3. Edits of one title that each come more than one alert window
    after the previous one never raise an alert: each insertion evicts
    its predecessor, so the deque holds the latest timestamp alone. *)
Theorem sparse_edits_never_alert (tss : list Z) :
  far_apart tss →
  fired_counts [] tss = [] ∧
  run_window tss = match last tss with Some t => [t] | None => [] end.
Proof.
  induction tss as [|ts tss IH] using rev_ind; intros Hfar; [done|].
  destruct IH as [Hquiet Hwin].
  { intros i a b Ha Hb. apply (Hfar i a b); by apply lookup_app_l_Some. }
  assert (record_edit (run_window tss) ts = mkRecorded false 1 [ts]) as Hrec.
  { rewrite Hwin. destruct (last tss) as [prev|] eqn:Hlast.
    - assert (prev + ALERT_WINDOW_SECONDS < ts) as Hgap.
      { apply last_Some in Hlast as [older ->].
        apply (Hfar (length older) prev ts).
        - rewrite <- (assoc_L (++)). simpl. by apply list_lookup_middle.
        - rewrite lookup_app_r; rewrite length_app; simpl; [|lia].
          by replace (S (length older) - (length older + 1))%nat with 0%nat by lia. }
      unfold record_edit, window_after_evict. simpl.
      destruct (Z.ltb_spec prev (ts - ALERT_WINDOW_SECONDS)); [|lia].
      destruct (Z.ltb_spec ts (ts - ALERT_WINDOW_SECONDS));
        [unfold ALERT_WINDOW_SECONDS in *; lia|done].
    - apply record_edit_after_clear. }
  rewrite fired_counts_snoc, run_window_snoc, Hrec, Hquiet, last_snoc. done.
Qed.

Lemma sparse_edits_never_alert_witness :
  fired_counts [] [0; 1801; 3602; 5403; 7204; 9005] = [] ∧
  run_window [0; 1801; 3602; 5403; 7204; 9005] =
    match last [0; 1801; 3602; 5403; 7204; 9005] with Some t => [t] | None => [] end.
Proof.
  apply (sparse_edits_never_alert [0; 1801; 3602; 5403; 7204; 9005]).
  intros i a b Ha Hb. unfold ALERT_WINDOW_SECONDS.
  do 6 (destruct i as [|i]; [simpl in *; simplify_eq; lia|]).
  by destruct i.
Defined.

(** X4. The deque of a title is always a contiguous run of that title's
    most recent timestamps in arrival order. A timestamp is never
    rejected as stale: the one just inserted is the last element of the
    deque, unless that call raised the alert, in which case the deque is
    empty. *)
Theorem window_is_recent_run (tss : list Z) (ts : Z) :
  run_window tss `suffix_of` tss ∧
  (fired (record_edit (run_window tss) ts) = true ∧ run_window (tss ++ [ts]) = [] ∨
   fired (record_edit (run_window tss) ts) = false ∧
   ∃ older, run_window (tss ++ [ts]) = older ++ [ts] ∧ older `suffix_of` tss).
Proof.
  split; [apply run_window_suffix|].
  rewrite run_window_snoc. unfold record_edit.
  case_bool_decide; simpl; [by left|right]. split; [done|].
  destruct (window_keeps_newest (run_window tss) ts) as [older Holder].
  exists older. split; [done|].
  pose proof (evict_suffix (ts - ALERT_WINDOW_SECONDS) (run_window tss ++ [ts])) as Hsuf.
  fold (window_after_evict (run_window tss) ts) in Hsuf. rewrite Holder in Hsuf.
  apply suffix_snoc_inv_2 in Hsuf. etrans; [exact Hsuf|apply run_window_suffix].
Qed.

(** ** The loop body, case by case *)

Section PassShape.

Implicit Types (st : State) (name : string) (members : list (string * json)).

Lemma with_rows_nil st : with_rows [] st = st.
Proof. unfold with_rows. rewrite app_nil_r. by destruct st. Qed.

Lemma with_rows_cons (r : MetricsRow) (rows : list MetricsRow) st :
  with_rows rows (with_rows [r] st) = with_rows (r :: rows) st.
Proof. unfold with_rows. simpl. by rewrite <- (assoc_L (++)). Qed.

(** Lines 197-198 as the rows they write. *)
Lemma append_all_rows_rows_for (titles : list string) st :
  append_all_rows titles st =
    match (rows_for titles (metrics st)).2 with
    | None => Continue (with_rows (rows_for titles (metrics st)).1 st)
    | Some e => Raise e (with_rows (rows_for titles (metrics st)).1 st)
    end.
Proof.
  revert st. induction titles as [|t rest IH]; intros st; simpl.
  - by rewrite with_rows_nil.
  - unfold row_for, append_metrics_row.
    destruct (metrics st !! t) as [m|]; simpl; [|by rewrite with_rows_nil].
    destruct (comment_cell (last_comment m)) as [c|]; simpl; [|by rewrite with_rows_nil].
    change (mkState (metrics st) (recent_edits st) (last_flush st)
              (metrics_csv st ++ [mkRow t (total_edits m) (default "" (last_edit_utc m))
                                        (or_empty (last_user m)) c])
              (snapshot_json st) (alerts_log st) (stdout st))
      with (with_rows [mkRow t (total_edits m) (default "" (last_edit_utc m))
                             (or_empty (last_user m)) c] st).
    rewrite IH. simpl. rewrite with_rows_cons. done.
Qed.

(** Lines 195-200 as the rows they write. *)
Lemma flush_periodically_rows_for (now : Q) st :
  flush_periodically now st =
    if flush_due now st then
      match (rows_for (elements TRACKED_TITLES) (metrics st)).2 with
      | None => Continue (set_last_flush now (write_snapshot
                  (with_rows (rows_for (elements TRACKED_TITLES) (metrics st)).1 st)))
      | Some e => Raise e (with_rows (rows_for (elements TRACKED_TITLES) (metrics st)).1 st)
      end
    else Continue st.
Proof.
  unfold flush_periodically, flush_due. destruct (Qle_bool _ _); [|done].
  rewrite append_all_rows_rows_for. by destruct (rows_for _ _).2.
Qed.

(** Lines 167-200, by the point at which they end. *)
Lemma process_tracked_cases name members (clock now : Q) st :
  metrics st !! name = None ∧
    process_tracked name members clock now st = Raise KeyError st
  ∨ ∃ m, metrics st !! name = Some m ∧
    (timestamp_value (event_timestamp members clock) = None ∧
       process_tracked name members clock now st =
         Raise TypeError (set_metrics (<[name := bumped m]>) st)
     ∨ ∃ z, timestamp_value (event_timestamp members clock) = Some z ∧
       (fromtimestamp_isoformat z = None ∧
          process_tracked name members clock now st =
            Raise FromTimestampError (set_metrics (<[name := bumped m]>) st)
        ∨ ∃ iso, fromtimestamp_isoformat z = Some iso ∧
          process_tracked name members clock now st =
            flush_periodically now (recorded_edit name members z iso m st))).
Proof.
  unfold process_tracked, event_timestamp, recorded_edit, bumped.
  destruct (metrics st !! name) as [m|]; [right; exists m; split; [done|]|by left].
  destruct (timestamp_value _) as [z|]; [right; exists z; split; [done|]|by left].
  destruct (fromtimestamp_isoformat z) as [iso|]; [right; exists iso|left]; done.
Qed.

(** Lines 163-200 on a decoded value, by its shape. *)
Lemma process_event_cases (event : json) (clock now : Q) st :
  match tracked_title event with
  | Some name =>
      ∃ members, event = JObj members ∧ name ∈ TRACKED_TITLES ∧
                 process_event event clock now st = process_tracked name members clock now st
  | None =>
      match ill_shaped event with
      | Some e => process_event event clock now st = Raise e st
      | None => process_event event clock now st = Continue st
      end
  end.
Proof.
  unfold tracked_title, ill_shaped, process_event.
  destruct event as [| | | | |members]; try done.
  destruct (dict_get "title" members); try done.
  case_bool_decide; [|done]. by exists members.
Qed.

(** Lines 146-200 on a line, by what it holds. *)
Lemma process_line_cases (json_loads : string → Loaded)
    (raw_line : string) (clock now : Q) st :
  process_line json_loads raw_line clock now st = Continue st ∨
  (∃ e, (e = RecursionError ∨ e = ValueError) ∧
        process_line json_loads raw_line clock now st = Raise e st) ∨
  ∃ event, String.prefix "data:" raw_line = true ∧
           json_loads (payload raw_line) = Decoded event ∧
           process_line json_loads raw_line clock now st = process_event event clock now st.
Proof.
  unfold process_line, payload.
  destruct (String.eqb raw_line ""); [by left|].
  destruct (String.prefix "data:" raw_line); [|by left]. simpl.
  destruct (String.eqb _ "[DONE]"); [by left|].
  destruct (json_loads _) as [event| | |].
  - right. right. by exists event.
  - by left.
  - right. left. exists RecursionError. split; [by left|done].
  - right. left. exists ValueError. split; [by right|done].
Qed.

End PassShape.

(** X5. A line changes nothing, in memory or on disk, unless it is a
    [data:] line whose payload, stripped of the whitespace [str.strip]
    removes, decodes to a dict with a tracked string as [title]: empty
    lines, other SSE fields, [data: [DONE]], payloads on which
    [json.loads] raises and events for any other title leave the state
    as it was, whether the pass completes or ends the run. *)
Theorem only_tracked_events_change_state (json_loads : string → Loaded)
    (raw_line : string) (clock now : Q) (st : State) :
  (∀ event, json_loads (payload raw_line) = Decoded event → tracked_title event = None) →
  outcome_state (process_line json_loads raw_line clock now st) = st.
Proof.
  intros Huntracked.
  destruct (process_line_cases json_loads raw_line clock now st)
    as [->|[(e & _ & ->)|(event & _ & Hloads & ->)]]; [done|done|].
  pose proof (process_event_cases event clock now st) as Hcases.
  rewrite (Huntracked event Hloads) in Hcases.
  destruct (ill_shaped event); by rewrite Hcases.
Qed.

Lemma only_tracked_events_change_state_witness :
  outcome_state (process_line JsonRef.loads (feed_line edit_elsewhere) 0 100 (init 0)) = init 0.
Proof.
  apply (only_tracked_events_change_state JsonRef.loads (feed_line edit_elsewhere) 0 100 (init 0)).
  intros event Hloads. vm_compute in Hloads. injection Hloads as <-. by vm_compute.
Defined.

(** X6. A payload that is valid JSON but not an object (a number, a
    string, a list, [null]), or an object whose [title] is a list or an
    object, is not skipped: [event.get] or the membership test raises, no
    [except] clause applies, and the exception ends [run_stream] with the
    state untouched and no final snapshot. *)
Theorem ill_shaped_payload_ends_run (json_loads : string → Loaded)
    (raw_line : string) (clock now : Q) (st : State) (event : json) (e : exn) :
  String.prefix "data:" raw_line = true →
  payload raw_line ≠ "[DONE]" →
  json_loads (payload raw_line) = Decoded event →
  ill_shaped event = Some e →
  step json_loads (Streaming, st) (Line raw_line clock now) = Some (Crashed e, st) ∧
  (e = AttributeError ∨ e = TypeError) ∧
  ∀ i, step json_loads (Crashed e, st) i = None.
Proof.
  intros Hprefix Hdone Hloads Hill.
  assert (process_line json_loads raw_line clock now st = Raise e st) as Hline.
  { unfold process_line. fold (payload raw_line). rewrite Hprefix, Hloads. simpl.
    destruct raw_line as [|c rest]; [done|]. simpl.
    destruct (String.eqb_spec (payload (String c rest)) "[DONE]"); [done|].
    pose proof (process_event_cases event clock now st) as Hcases.
    rewrite Hill in Hcases.
    destruct (tracked_title event) eqn:Htracked; [|done].
    unfold tracked_title, ill_shaped in *.
    destruct event as [| | | | |members]; try done.
    by destruct (dict_get "title" members). }
  split; [simpl; by rewrite Hline|]. split; [|done].
  unfold ill_shaped in Hill. destruct event as [| | | | |members];
    try (injection Hill as <-; by left).
  destruct (dict_get "title" members); try done; injection Hill as <-; by right.
Qed.

Lemma ill_shaped_payload_ends_run_witness :
  step JsonRef.loads (Streaming, init 0) (Line "data: [1, 2]" 0 100)
    = Some (Crashed AttributeError, init 0) ∧
  (AttributeError = AttributeError ∨ AttributeError = TypeError) ∧
  ∀ i, step JsonRef.loads (Crashed AttributeError, init 0) i = None.
Proof.
  apply (ill_shaped_payload_ends_run JsonRef.loads "data: [1, 2]" 0 100 (init 0)
           (JArr [JInt 1; JInt 2]) AttributeError); by vm_compute.
Defined.

(** X7. When line 175 raises for a tracked event (a [timestamp] that is a
    string, a list or a dict, or an integer outside the years 1 to 9999),
    the edit has already been counted by line 174 and nothing else has
    happened: [last_*] fields, deques and files are as before, and the
    exception leaves the loop body. *)
Theorem failed_conversion_counts_the_edit (name : string)
    (members : list (string * json)) (clock now : Q) (st : State) (m : EntityMetrics) :
  dict_get "title" members = JStr name →
  name ∈ TRACKED_TITLES →
  metrics st !! name = Some m →
  timestamp_value (event_timestamp members clock) ≫= fromtimestamp_isoformat = None →
  ∃ e, process_event (JObj members) clock now st =
         Raise e (set_metrics (<[name := bumped m]>) st) ∧
       (e = TypeError ∨ e = FromTimestampError).
Proof.
  intros Htitle Htracked Hm Hfail.
  assert (process_event (JObj members) clock now st =
          process_tracked name members clock now st) as ->.
  { simpl. by rewrite Htitle, bool_decide_eq_true_2. }
  destruct (process_tracked_cases name members clock now st)
    as [[Hnone _]|(m' & Hm' & Hcases)]; [congruence|].
  rewrite Hm in Hm'. injection Hm' as <-.
  destruct Hcases as [[_ ->]|(z & Hz & [[_ ->]|(iso & Hiso & _)])].
  - exists TypeError. split; [done|by left].
  - exists FromTimestampError. split; [done|by right].
  - rewrite Hz in Hfail. simpl in Hfail. congruence.
Qed.

Lemma failed_conversion_counts_the_edit_witness :
  ∃ e, process_event
         (JObj [("title", JStr "YouTube"); ("timestamp", JStr "2024-05-01T10:00:00Z")])
         0 100 (init 0) =
         Raise e (set_metrics (<["YouTube" := bumped (mkMetrics 0 None JNull JNull)]>) (init 0)) ∧
       (e = TypeError ∨ e = FromTimestampError).
Proof.
  apply (failed_conversion_counts_the_edit "YouTube"
           [("title", JStr "YouTube"); ("timestamp", JStr "2024-05-01T10:00:00Z")]
           0 100 (init 0) (mkMetrics 0 None JNull JNull)); by vm_compute.
Defined.

(** ** Invariants of a run *)

Section RunFacts.

Variable json_loads : string → Loaded.

Implicit Types (st : State) (name : string) (c : Mode * State) (inputs : list Input).

Lemma flush_periodically_flushed (now : Q) st :
  flushed now st (flush_periodically now st).
Proof.
  rewrite flush_periodically_rows_for.
  destruct (flush_due now st) eqn:Hdue; [|by constructor].
  destruct (rows_for _ _).2 as [e|] eqn:Herr; by constructor.
Qed.

Lemma process_line_pass (raw_line : string) (clock now : Q) st :
  pass now st (process_line json_loads raw_line clock now st).
Proof.
  destruct (process_line_cases json_loads raw_line clock now st)
    as [->|[(e & He & ->)|(event & _ & _ & ->)]];
    [constructor|by apply pass_not_loaded|].
  pose proof (process_event_cases event clock now st) as Hcases.
  destruct (tracked_title event) as [name|].
  - destruct Hcases as (members & _ & Htracked & ->).
    destruct (process_tracked_cases name members clock now st)
      as [[Hnone ->]|(m & Hm & [[_ ->]|(z & _ & [[_ ->]|(iso & _ & ->)])])].
    + by eapply pass_no_entry.
    + eapply pass_unconverted; eauto.
    + eapply pass_unconverted; eauto.
    + eapply pass_recorded; eauto. apply flush_periodically_flushed.
  - destruct (ill_shaped event) as [e|] eqn:Hill; rewrite Hcases; [|constructor].
    apply pass_ill_shaped. unfold ill_shaped in Hill.
    destruct event as [| | | | |members]; try (injection Hill as <-; by left).
    destruct (dict_get "title" members); try done; injection Hill as <-; by right.
Qed.

(** A property kept by every transition holds after a run. *)
Lemma run_invariant (P : Mode * State → Prop) :
  (∀ c i c', P c → step json_loads c i = Some c' → P c') →
  ∀ inputs c c', P c → run json_loads c inputs = Some c' → P c'.
Proof.
  intros Hstep. induction inputs as [|i inputs IH]; intros c c' Hc Hrun.
  - by injection Hrun as <-.
  - cbn [run] in Hrun. destruct (step json_loads c i) as [c1|] eqn:Hc1; [|done].
    eapply IH; [|exact Hrun]. by eapply Hstep.
Qed.

(** Fields of the state after lines 174-192. *)
Lemma recorded_edit_fields name (members : list (string * json)) (z : Z) (iso : string)
    (m : EntityMetrics) st :
  metrics (recorded_edit name members z iso m st) =
    <[name := mkMetrics (S (total_edits m)) (Some iso)
                (dict_get "user" members) (dict_get "comment" members)]> (metrics st) ∧
  recent_edits (recorded_edit name members z iso m st) =
    <[name := dq_after (record_edit (deque_of name st) z)]> (recent_edits st) ∧
  alerts_log (recorded_edit name members z iso m st) =
    alerts_log st ++
    (if fired (record_edit (deque_of name st) z)
     then [alert_message name (window_size (record_edit (deque_of name st) z))] else []) ∧
  metrics_csv (recorded_edit name members z iso m st) = metrics_csv st ∧
  snapshot_json (recorded_edit name members z iso m st) = snapshot_json st ∧
  last_flush (recorded_edit name members z iso m st) = last_flush st ∧
  stdout (recorded_edit name members z iso m st) = stdout st.
Proof.
  unfold recorded_edit, update_alert_window, deque_of. simpl.
  destruct (fired _); simpl; by rewrite ?app_nil_r.
Qed.

Lemma rows_for_titles (titles : list string) (dict : gmap string EntityMetrics) :
  map row_title (rows_for titles dict).1 `prefix_of` titles ∧
  ((rows_for titles dict).2 = None → map row_title (rows_for titles dict).1 = titles) ∧
  Forall (λ r, ∃ m, dict !! row_title r = Some m ∧ row_total_edits r = total_edits m ∧
                    row_last_edit_utc r = default "" (last_edit_utc m))
         (rows_for titles dict).1.
Proof.
  induction titles as [|t rest (IHp & IHt & IHr)]; simpl.
  - split; [done|]. split; [done|constructor].
  - unfold row_for. destruct (dict !! t) as [m|] eqn:Hm; simpl;
      [|split; [apply prefix_nil|split; [done|constructor]]].
    destruct (comment_cell (last_comment m)); simpl;
      [|split; [apply prefix_nil|split; [done|constructor]]].
    split; [by apply prefix_cons|]. split; [intros Hnone; by rewrite IHt|].
    constructor; [by exists m|done].
Qed.

Lemma rows_for_error (titles : list string) (dict : gmap string EntityMetrics) (e : exn) :
  (rows_for titles dict).2 = Some e →
  e = KeyError ∧ (∃ t, t ∈ titles ∧ dict !! t = None) ∨
  e = TypeError ∧ (∃ t m, t ∈ titles ∧ dict !! t = Some m ∧
                          comment_cell (last_comment m) = None).
Proof.
  induction titles as [|t rest IH]; simpl; [done|].
  unfold row_for. destruct (dict !! t) as [m|] eqn:Hm; simpl.
  - destruct (comment_cell (last_comment m)) eqn:Hc; simpl.
    + intros He. destruct (IH He) as [[-> (t' & Hin & Hnone)]|[-> (t' & m' & Hin & Hm' & Hc')]].
      * left. split; [done|]. exists t'. split; [by right|done].
      * right. split; [done|]. exists t', m'. split; [by right|done].
    + intros [= <-]. right. split; [done|]. exists t, m. split; [by left|done].
  - intros [= <-]. left. split; [done|]. exists t. split; [by left|done].
Qed.

End RunFacts.

(** Transitions of the connection loop, by the input that caused them. *)
Lemma step_inv (json_loads : string → Loaded) (mode mode' : Mode) (st st' : State)
    (i : Input) :
  step json_loads (mode, st) i = Some (mode', st') →
  st' = st ∧ crashed mode = false ∧ mode' ≠ Stopped ∧
    (∀ e, mode' = Crashed e → e = KeyboardInterrupt) ∧
    (i = Connected ∨ i = StreamEnd ∨ i = SleepDone ∨ i = Interrupt)
  ∨ (∃ e, i = TransportError e ∧ mode' = Backoff ∧
          st' = log_alert ("INFO: reconnecting after error: " +:+ e) st)
  ∨ (i = Interrupt ∧ mode' = Stopped ∧
     st' = print "Stopped. Snapshot saved." (write_snapshot st))
  ∨ (∃ raw_line clock now, i = Line raw_line clock now ∧ mode = Streaming ∧
       (mode' = Streaming ∧ pass now st (Continue st') ∨
        ∃ e, mode' = Crashed e ∧ pass now st (Raise e st'))).
Proof.
  intros Hstep. destruct mode, i; simpl in Hstep; try discriminate;
    try (injection Hstep as <- <-).
  - left. repeat split; try done. by left.
  - right. left. by eexists.
  - right. right. by left.
  - right. right. right. exists raw_line, clock, now. split; [done|]. split; [done|].
    pose proof (process_line_pass json_loads raw_line clock now st) as Hpass.
    destruct (process_line json_loads raw_line clock now st) as [st1|e st1];
      injection Hstep as <- <-; [by left|right; by exists e].
  - left. repeat split; try done. right. by left.
  - right. left. by eexists.
  - right. right. by left.
  - left. repeat split; try done. right. right. by left.
  - left. repeat split; try done; [by intros e [= <-]|]. right. right. by right.
Qed.

Lemma step_from_live (json_loads : string → Loaded) (mode : Mode) (st : State)
    (i : Input) (c' : Mode * State) :
  step json_loads (mode, st) i = Some c' → crashed mode = false ∧ mode ≠ Stopped.
Proof. intros Hstep. by destruct mode, i. Qed.

Lemma dom_insert_member {A} (d : gmap string A) (X : gset string) (name : string) (x : A) :
  name ∈ X → dom d = X → dom (<[name := x]> d) = X.
Proof.
  intros Hin Hdom. rewrite dom_insert_L, Hdom.
  apply subseteq_union_1_L. by apply singleton_subseteq_l.
Qed.

Lemma dom_insert_within {A} (d : gmap string A) (X : gset string) (name : string) (x : A) :
  name ∈ X → dom d ⊆ X → dom (<[name := x]> d) ⊆ X.
Proof.
  intros Hin Hdom. rewrite dom_insert_L.
  apply union_subseteq. split; [by apply singleton_subseteq_l|done].
Qed.

Lemma keys_of_pass (now : Q) (st : State) (o : Outcome) :
  pass now st o →
  dom (metrics st) = TRACKED_TITLES → dom (recent_edits st) ⊆ TRACKED_TITLES →
  dom (metrics (outcome_state o)) = TRACKED_TITLES ∧
  dom (recent_edits (outcome_state o)) ⊆ TRACKED_TITLES ∧
  o ≠ Raise KeyError (outcome_state o).
Proof.
  intros Hpass Hkeys Hdeques.
  destruct Hpass as [|e He|e He|name Htracked Hnone|name m e Htracked Hm He
                     |name m members z iso o Htracked Hm Hflush]; simpl.
  - split; [exact Hkeys|]. split; [exact Hdeques|]. discriminate.
  - split; [exact Hkeys|]. split; [exact Hdeques|]. intros Heq.
    assert (e = KeyError) as -> by congruence. destruct He; discriminate.
  - split; [exact Hkeys|]. split; [exact Hdeques|]. intros Heq.
    assert (e = KeyError) as -> by congruence. destruct He; discriminate.
  - apply not_elem_of_dom in Hnone. rewrite Hkeys in Hnone. contradiction.
  - split; [by apply dom_insert_member|]. split; [exact Hdeques|].
    intros Heq. assert (e = KeyError) as -> by congruence. destruct He; discriminate.
  - destruct (recorded_edit_fields name members z iso m st)
      as (Hmet & Hrec & _).
    assert (dom (metrics (recorded_edit name members z iso m st)) = TRACKED_TITLES) as Hk.
    { rewrite Hmet. by apply dom_insert_member. }
    assert (dom (recent_edits (recorded_edit name members z iso m st)) ⊆ TRACKED_TITLES) as Hd.
    { rewrite Hrec. by apply dom_insert_within. }
    destruct Hflush as [Hdue|Hdue Hrows|e Hdue Hrows]; simpl.
    + split; [exact Hk|]. split; [exact Hd|]. discriminate.
    + split; [exact Hk|]. split; [exact Hd|]. discriminate.
    + split; [exact Hk|]. split; [exact Hd|]. intros Heq.
      assert (e = KeyError) as -> by congruence.
      apply rows_for_error in Hrows as [[_ (t & Hin & Hnone)]|[? _]]; [|discriminate].
      apply not_elem_of_dom in Hnone. rewrite Hk in Hnone.
      apply elem_of_elements in Hin. contradiction.
Qed.

(** X8. In every state [run_stream] can reach, the metrics dictionary has
    exactly the tracked titles as its keys and deques exist for tracked
    titles only; consequently no lookup [metrics[title]] or [metrics[t]]
    ever raises [KeyError]. *)
Theorem metrics_keys_are_the_tracked_titles (json_loads : string → Loaded)
    (t0 : Q) (inputs : list Input) (mode : Mode) (st : State) :
  run json_loads (Connecting, init t0) inputs = Some (mode, st) →
  dom (metrics st) = TRACKED_TITLES ∧
  dom (recent_edits st) ⊆ TRACKED_TITLES ∧
  mode ≠ Crashed KeyError.
Proof.
  intros Hrun.
  apply (run_invariant json_loads
           (λ c, dom (metrics c.2) = TRACKED_TITLES ∧
                 dom (recent_edits c.2) ⊆ TRACKED_TITLES ∧
                 c.1 ≠ Crashed KeyError)
           ) with (inputs := inputs) (c := (Connecting, init t0)) (c' := (mode, st));
    [| |exact Hrun].
  - clear. intros [mode st] i [mode' st'] (Hkeys & Hdeques & Hmode) Hstep. simpl in *.
    apply step_inv in Hstep
      as [(-> & _ & _ & Hc & _)|[(e & _ & -> & ->)|[(_ & -> & ->)
         |(raw & clock & now & _ & _ & [[-> Hpass]|(e & -> & Hpass)])]]]; simpl.
    + split; [exact Hkeys|]. split; [exact Hdeques|].
      intros ->. specialize (Hc _ eq_refl). discriminate.
    + split; [exact Hkeys|]. split; [exact Hdeques|]. discriminate.
    + split; [exact Hkeys|]. split; [exact Hdeques|]. discriminate.
    + destruct (keys_of_pass _ _ _ Hpass Hkeys Hdeques) as (Hk & Hd & _).
      split; [exact Hk|]. split; [exact Hd|]. discriminate.
    + destruct (keys_of_pass _ _ _ Hpass Hkeys Hdeques) as (Hk & Hd & Hne). simpl in *.
      split; [exact Hk|]. split; [exact Hd|]. intros [= ->]. by apply Hne.
  - simpl. split; [unfold initial_metrics; apply dom_gset_to_gmap|].
    split; [rewrite dom_empty_L; apply empty_subseteq|discriminate].
Qed.

Lemma metrics_keys_are_the_tracked_titles_witness :
  ∃ mode st, run JsonRef.loads (Connecting, init 0) burst = Some (mode, st) ∧
             dom (metrics st) = TRACKED_TITLES ∧
             dom (recent_edits st) ⊆ TRACKED_TITLES ∧
             mode ≠ Crashed KeyError.
Proof.
  eexists _, _. split; [by vm_compute|].
  eapply (metrics_keys_are_the_tracked_titles JsonRef.loads 0%Q burst). by vm_compute.
Defined.

(** What a pass leaves of the counters. *)
Lemma counters_of_pass (now : Q) (st : State) (o : Outcome) (name : string) (m : EntityMetrics) :
  pass now st o → metrics st !! name = Some m →
  ∃ m', metrics (outcome_state o) !! name = Some m' ∧
        (total_edits m ≤ total_edits m' ≤ S (total_edits m))%nat.
Proof.
  intros Hpass Hm.
  assert (∀ name0 m0 (x : EntityMetrics), metrics st !! name0 = Some m0 →
            total_edits x = S (total_edits m0) →
            ∃ m', <[name0 := x]> (metrics st) !! name = Some m' ∧
                  (total_edits m ≤ total_edits m' ≤ S (total_edits m))%nat) as Hins.
  { intros name0 m0 x Hm0 Hx. destruct (decide (name0 = name)) as [->|Hne].
    - rewrite lookup_insert_eq. exists x. split; [done|].
      rewrite Hm in Hm0. injection Hm0 as <-. lia.
    - rewrite lookup_insert_ne by done. exists m. split; [done|lia]. }
  destruct Hpass as [|e He|e He|name0 Htracked Hnone|name0 m0 e Htracked Hm0 He
                     |name0 m0 members z iso o Htracked Hm0 Hflush]; simpl;
    try (exists m; split; [done|lia]).
  - by apply (Hins name0 m0).
  - destruct (recorded_edit_fields name0 members z iso m0 st) as (Hmet & _).
    destruct Hflush; simpl; rewrite Hmet; by apply (Hins name0 m0).
Qed.

(** X9. A counter never decreases and is never reset: over any stretch of
    a run, connection failures and reconnects included, [total_edits] of
    a title grows by at least 0 and at most the number of lines read. *)
Theorem counters_never_decrease (json_loads : string → Loaded)
    (inputs : list Input) (mode mode' : Mode) (st st' : State)
    (name : string) (m : EntityMetrics) :
  run json_loads (mode, st) inputs = Some (mode', st') →
  metrics st !! name = Some m →
  ∃ m', metrics st' !! name = Some m' ∧
        (total_edits m ≤ total_edits m' ≤ total_edits m + lines_read inputs)%nat.
Proof.
  revert mode st m. induction inputs as [|i inputs IH]; intros mode st m Hrun Hm.
  - injection Hrun as <- <-. exists m. split; [done|]. unfold lines_read. simpl. lia.
  - cbn [run] in Hrun.
    destruct (step json_loads (mode, st) i) as [[mode1 st1]|] eqn:Hstep; [|done].
    assert (∃ m1, metrics st1 !! name = Some m1 ∧
                  (total_edits m ≤ total_edits m1 ≤ total_edits m + lines_read [i])%nat)
      as (m1 & Hm1 & Hbound).
    { apply step_inv in Hstep
        as [(-> & _)|[(e & -> & _ & ->)|[(-> & _ & ->)
           |(raw & clock & now & -> & _ & [[_ Hpass]|(e & _ & Hpass)])]]];
        unfold lines_read; simpl;
        try (exists m; split; [done|lia]);
        destruct (counters_of_pass _ _ _ name m Hpass Hm) as (m1 & Hm1 & Hb);
        exists m1; (split; [done|lia]). }
    destruct (IH mode1 st1 m1 Hrun Hm1) as (m' & Hm' & Hbound').
    exists m'. split; [done|].
    unfold lines_read in *. simpl in *. destruct i; simpl in *; lia.
Qed.

Lemma counters_never_decrease_witness :
  ∃ st' m', run JsonRef.loads (Streaming, after_41_edits) reconnect_then_edit
              = Some (Streaming, st') ∧
            metrics after_41_edits !! "Wikipedia"
              = Some (mkMetrics 41 (Some "2023-11-14T22:13:20+00:00") (JStr "Alice") (JStr "typo")) ∧
            metrics st' !! "Wikipedia" = Some m' ∧
            total_edits m' = 42%nat ∧
            lines_read reconnect_then_edit = 1%nat ∧
            (41 ≤ total_edits m' ≤ 41 + lines_read reconnect_then_edit)%nat.
Proof.
  pose (st' := outcome_state
                 (process_line JsonRef.loads (feed_line edit_by_alice) 0 1
                    (log_alert "INFO: reconnecting after error: Timeout()" after_41_edits))).
  destruct (counters_never_decrease JsonRef.loads reconnect_then_edit
              Streaming Streaming after_41_edits st' "Wikipedia"
              (mkMetrics 41 (Some "2023-11-14T22:13:20+00:00") (JStr "Alice") (JStr "typo")))
    as (m' & Hm' & Hbound); [by vm_compute|by vm_compute|].
  assert (total_edits m' = 42%nat) as Htotal.
  { pose proof Hm' as H. vm_compute in H. injection H as <-. reflexivity. }
  exists st', m'. split; [by vm_compute|]. split; [by vm_compute|]. split; [exact Hm'|].
  split; [exact Htotal|]. split; [by vm_compute|exact Hbound].
Defined.

(** What a pass leaves of the files and of the standard output. *)
Lemma files_of_pass (now : Q) (st : State) (o : Outcome) :
  pass now st o →
  stdout (outcome_state o) = stdout st ∧
  (alerts_log (outcome_state o) = alerts_log st ∨
   ∃ name n, alerts_log (outcome_state o) = alerts_log st ++ [alert_message name n]) ∧
  ∃ rows, metrics_csv (outcome_state o) = metrics_csv st ++ rows ∧
          map row_title rows `prefix_of` elements TRACKED_TITLES ∧
          (∀ st', o = Continue st' → rows = [] ∨ map row_title rows = elements TRACKED_TITLES).
Proof.
  intros Hpass.
  assert (∃ rows : list MetricsRow, metrics_csv st = metrics_csv st ++ rows ∧
            map row_title rows `prefix_of` elements TRACKED_TITLES ∧
            (∀ st', o = Continue st' → rows = [] ∨ map row_title rows = elements TRACKED_TITLES))
    as Hnone.
  { exists []. rewrite app_nil_r. split; [done|]. split; [apply prefix_nil|]. by left. }
  destruct Hpass as [|e He|e He|name0 Htracked Hnone0|name0 m0 e Htracked Hm0 He
                     |name0 m0 members z iso o Htracked Hm0 Hflush]; simpl;
    try (split; [done|]; split; [by left|]; exact Hnone).
  destruct (recorded_edit_fields name0 members z iso m0 st)
    as (_ & _ & Hlog & Hcsv & _ & _ & Hout).
  assert (alerts_log (recorded_edit name0 members z iso m0 st) = alerts_log st ∨
          ∃ name n, alerts_log (recorded_edit name0 members z iso m0 st)
                    = alerts_log st ++ [alert_message name n]) as Hlog'.
  { rewrite Hlog. destruct (fired _); [right; by eexists _, _|left; by rewrite app_nil_r]. }
  pose proof (rows_for_titles (elements TRACKED_TITLES)
                (metrics (recorded_edit name0 members z iso m0 st))) as (Hp & Ht & _).
  destruct Hflush as [Hdue|Hdue Hrows|e Hdue Hrows]; simpl.
  - split; [done|]. split; [done|]. rewrite Hcsv. exact Hnone.
  - split; [done|]. split; [done|]. rewrite Hcsv. eexists. split; [done|].
    split; [done|]. intros _ _. right. by apply Ht.
  - split; [done|]. split; [done|]. rewrite Hcsv. eexists. split; [done|].
    split; [done|]. intros st' Heq. discriminate.
Qed.



(** X11. A run that ends in [Stopped] was stopped by an interrupt caught
    at line 206: the snapshot file then holds exactly the metrics
    dictionary as it stands in memory, the last input was the interrupt,
    and the only thing printed is the farewell line. *)
Theorem clean_stop_saves_current_metrics (json_loads : string → Loaded)
    (t0 : Q) (inputs : list Input) (st : State) :
  run json_loads (Connecting, init t0) inputs = Some (Stopped, st) →
  snapshot_json st = metrics st ∧
  stdout st = ["Stopped. Snapshot saved."] ∧
  last inputs = Some Interrupt.
Proof.
  intros Hrun.
  assert (∀ inputs c c',
            (if c.1 is Stopped then False else stdout c.2 = []) →
            run json_loads c inputs = Some c' →
            if c'.1 is Stopped
            then snapshot_json c'.2 = metrics c'.2 ∧
                 stdout c'.2 = ["Stopped. Snapshot saved."] ∧
                 last inputs = Some Interrupt
            else stdout c'.2 = []) as Hgen.
  { clear. induction inputs as [|i inputs IH]; intros [mode st] c' Hc Hrun'.
    - injection Hrun' as <-. simpl in *. by destruct mode.
    - cbn [run] in Hrun'.
      destruct (step json_loads (mode, st) i) as [[mode1 st1]|] eqn:Hstep; [|done].
      assert (mode1 = Stopped ∨ mode1 ≠ Stopped) as [->|Hne]
        by (destruct mode1; (by left) || (by right)).
      + destruct inputs as [|i' inputs]; [|done].
        injection Hrun' as <-. simpl in *.
        apply step_inv in Hstep
          as [(_ & _ & Hns & _)|[(e & _ & ? & _)|[(-> & _ & ->)
             |(raw & clock & now & _ & _ & [[? _]|(e & ? & _)])]]]; try done.
        simpl. destruct mode; try done; simpl in Hc; by rewrite Hc.
      + assert (stdout st1 = []) as Hout.
        { assert (stdout st = []) as Hst by (by destruct mode).
          apply step_inv in Hstep
            as [(-> & _)|[(e & _ & _ & ->)|[(_ & -> & _)
               |(raw & clock & now & _ & _ & Hpass)]]]; try done.
          assert (∃ o, pass now st o ∧ outcome_state o = st1) as (o & Hp & <-).
          { destruct Hpass as [[_ Hp]|(e & _ & Hp)]; eexists; (split; [exact Hp|done]). }
          destruct (files_of_pass _ _ _ Hp) as (-> & _). done. }
        specialize (IH (mode1, st1) c'). simpl in IH.
        assert (if mode1 is Stopped then False else stdout st1 = []) as Hc1
          by (by destruct mode1).
        specialize (IH Hc1 Hrun'). destruct c' as [mode' st']. simpl in *.
        destruct mode'; try done. destruct IH as (? & ? & Hlast).
        repeat split; try done. destruct inputs; [done|]. exact Hlast. }
  specialize (Hgen inputs (Connecting, init t0) (Stopped, st)). simpl in Hgen.
  by apply Hgen.
Qed.

Lemma clean_stop_saves_current_metrics_witness :
  ∃ st, run JsonRef.loads (Connecting, init 0) (burst ++ [Interrupt]) = Some (Stopped, st) ∧
        snapshot_json st = metrics st ∧
        stdout st = ["Stopped. Snapshot saved."] ∧
        last (burst ++ [Interrupt]) = Some Interrupt.
Proof.
  eexists. split; [by vm_compute|].
  eapply (clean_stop_saves_current_metrics JsonRef.loads 0%Q (burst ++ [Interrupt])).
  by vm_compute.
Defined.

Lemma flush_of_pass (now : Q) (st : State) (o : Outcome) :
  pass now st o →
  match o with
  | Continue st' => files_untouched st st' ∨ whole_flush now st st'
  | Raise _ _ => True
  end.
Proof.
  intros Hpass.
  destruct Hpass as [|e He|e He|name0 Htracked Hnone0|name0 m0 e Htracked Hm0 He
                     |name0 m0 members z iso o Htracked Hm0 Hflush];
    cbv beta iota; try exact I.
  - left. repeat split; reflexivity.
  - destruct (recorded_edit_fields name0 members z iso m0 st)
      as (_ & _ & _ & Hcsv & Hsnap & Hlast & _).
    pose proof (rows_for_titles (elements TRACKED_TITLES)
                  (metrics (recorded_edit name0 members z iso m0 st))) as (_ & Ht & Hr).
    destruct Hflush as [Hdue|Hdue Hrows|e Hdue Hrows]; cbv beta iota; [| |exact I].
    + left. unfold files_untouched. rewrite Hcsv, Hsnap, Hlast. repeat split; reflexivity.
    + right. unfold whole_flush, flush_due in *. rewrite Hlast in Hdue.
      specialize (Ht Hrows).
      set (rows := (rows_for (elements TRACKED_TITLES)
                      (metrics (recorded_edit name0 members z iso m0 st))).1) in *.
      clearbody rows.
      cbn [last_flush snapshot_json metrics metrics_csv set_last_flush write_snapshot with_rows].
      split; [exact Hdue|]. split; [reflexivity|]. split; [reflexivity|].
      exists rows. rewrite Hcsv. split; [reflexivity|]. split; [exact Ht|exact Hr].
Qed.

(** X12. A pass that completes either leaves the CSV file, the snapshot
    and the flush timer alone, or performs a whole flush: the flush was
    due, the timer is set to [now], the snapshot equals the dictionary
    including the edit just processed, and exactly one row per tracked
    title was appended, each showing the title's current counter and last
    edit time. *)
Theorem flush_is_all_or_nothing (json_loads : string → Loaded)
    (raw_line : string) (clock now : Q) (st st' : State) :
  process_line json_loads raw_line clock now st = Continue st' →
  files_untouched st st' ∨ whole_flush now st st'.
Proof.
  intros Hline.
  pose proof (flush_of_pass now st _ (process_line_pass json_loads raw_line clock now st))
    as Hflush.
  rewrite Hline in Hflush. exact Hflush.
Qed.

Lemma flush_is_all_or_nothing_witness :
  ∃ st', process_line JsonRef.loads (feed_line edit_by_alice) 0 25 (init 0) = Continue st' ∧
         (files_untouched (init 0) st' ∨ whole_flush 25 (init 0) st').
Proof.
  eexists. split; [by vm_compute|].
  eapply (flush_is_all_or_nothing JsonRef.loads (feed_line edit_by_alice) 0 25 (init 0)).
  by vm_compute.
Defined.

(** X13. While the loop is live (connecting, streaming or backing off),
    the rows this run has appended to the CSV file come in complete
    groups, one group per flush, each listing every tracked title once in
    the iteration order of the set. States are those between two passes
    through the loop body. *)
Theorem csv_rows_come_in_full_groups (json_loads : string → Loaded)
    (t0 : Q) (inputs : list Input) (mode : Mode) (st : State) :
  run json_loads (Connecting, init t0) inputs = Some (mode, st) →
  live mode = true →
  ∃ k : nat, map row_title (metrics_csv st) = concat (replicate k (elements TRACKED_TITLES)).
Proof.
  intros Hrun Hlive.
  assert (crashed mode = false) as Hok by (by destruct mode).
  revert Hok. clear Hlive.
  apply (run_invariant json_loads
           (λ c, crashed c.1 = false →
                 ∃ k : nat, map row_title (metrics_csv c.2)
                            = concat (replicate k (elements TRACKED_TITLES))))
    with (inputs := inputs) (c := (Connecting, init t0)) (c' := (mode, st));
    [| |exact Hrun].
  - clear. intros [mode st] i [mode' st'] Hinv Hstep Hok. simpl in *.
    destruct (step_from_live _ _ _ _ _ Hstep) as [Hlive _].
    destruct (Hinv Hlive) as [k Hk].
    apply step_inv in Hstep
      as [(-> & _)|[(e & _ & _ & ->)|[(_ & _ & ->)
         |(raw & clock & now & _ & _ & [[_ Hpass]|(e & -> & _)])]]];
      [exists k; exact Hk|exists k; exact Hk|exists k; exact Hk| |discriminate Hok].
    destruct (files_of_pass _ _ _ Hpass) as (_ & _ & rows & Hcsv & _ & Hfull).
    simpl in Hcsv. rewrite Hcsv, map_app, Hk.
    destruct (Hfull st' eq_refl) as [-> | ->].
    + exists k. by rewrite app_nil_r.
    + exists (S k). rewrite replicate_S_end, concat_app. simpl. by rewrite app_nil_r.
  - intros _. by exists 0%nat.
Qed.

Lemma csv_rows_come_in_full_groups_witness :
  ∃ st, run JsonRef.loads (Connecting, init 0)
          [Connected; Line (feed_line edit_by_alice) 0 25; Line (feed_line edit_by_bob) 0 50]
        = Some (Streaming, st) ∧
        length (metrics_csv st) = 10%nat ∧
        ∃ k : nat, map row_title (metrics_csv st) = concat (replicate k (elements TRACKED_TITLES)).
Proof.
  eexists. split; [by vm_compute|]. split; [by vm_compute|].
  eapply (csv_rows_come_in_full_groups JsonRef.loads 0%Q
            [Connected; Line (feed_line edit_by_alice) 0 25; Line (feed_line edit_by_bob) 0 50]
            Streaming); by vm_compute.
Defined.

Lemma info_lines_app (l1 l2 : list string) :
  info_lines (l1 ++ l2) = (info_lines l1 + info_lines l2)%nat.
Proof. unfold info_lines. by rewrite List.filter_app, length_app. Qed.

(** X14. Every transport failure is logged exactly once and nothing else
    writes a reconnect notice: after any run, the number of [INFO] lines
    in the alert log equals the number of [RequestException]s and
    [TimeoutError]s met; a stream that simply ends is reconnected without
    a notice. *)
Theorem one_notice_per_transport_error (json_loads : string → Loaded)
    (inputs : list Input) (c c' : Mode * State) :
  run json_loads c inputs = Some c' →
  info_lines (alerts_log c'.2) = (info_lines (alerts_log c.2) + transport_errors inputs)%nat.
Proof.
  revert c. induction inputs as [|i inputs IH]; intros [mode st] Hrun.
  - injection Hrun as <-. unfold transport_errors. simpl. lia.
  - cbn [run] in Hrun.
    destruct (step json_loads (mode, st) i) as [[mode1 st1]|] eqn:Hstep; [|done].
    rewrite (IH _ Hrun). simpl.
    assert (info_lines (alerts_log st1) =
            info_lines (alerts_log st) + transport_errors [i])%nat as ->.
    { apply step_inv in Hstep
        as [(-> & _ & _ & _ & Hi)|[(e & -> & _ & ->)|[(-> & _ & ->)
           |(raw & clock & now & -> & _ & Hpass)]]]; unfold transport_errors; simpl.
      - destruct Hi as [-> | [-> | [-> | ->]]]; simpl; lia.
      - rewrite info_lines_app. unfold info_lines. simpl. lia.
      - lia.
      - assert (∃ o, pass now st o ∧ outcome_state o = st1) as (o & Hp & <-).
        { destruct Hpass as [[_ Hp]|(e & _ & Hp)]; eexists; (split; [exact Hp|done]). }
        destruct (files_of_pass _ _ _ Hp) as (_ & [-> | (name & n & ->)] & _); [lia|].
        rewrite info_lines_app. unfold info_lines. simpl. lia. }
    unfold transport_errors. simpl. destruct i; simpl; lia.
Qed.

Lemma one_notice_per_transport_error_witness :
  ∃ c', run JsonRef.loads (Connecting, init 0)
          [TransportError "ConnectTimeout()"; SleepDone; Connected; StreamEnd;
           Connected; TransportError "ChunkedEncodingError()"]
        = Some c' ∧
        info_lines (alerts_log c'.2) =
          (info_lines (alerts_log (init 0)) +
           transport_errors [TransportError "ConnectTimeout()"; SleepDone; Connected; StreamEnd;
                             Connected; TransportError "ChunkedEncodingError()"])%nat.
Proof.
  eexists. split; [by vm_compute|].
  eapply (one_notice_per_transport_error JsonRef.loads _ (Connecting, init 0)).
  by vm_compute.
Defined.

(** Lines 195-200 touch neither the dictionary, nor the deques, nor the
    alert log. *)
Lemma flushed_frame (now : Q) (st : State) (o : Outcome) :
  flushed now st o →
  metrics (outcome_state o) = metrics st ∧
  recent_edits (outcome_state o) = recent_edits st ∧
  alerts_log (outcome_state o) = alerts_log st.
Proof. intros Hflush. destruct Hflush; repeat split; reflexivity. Qed.

Lemma process_tracked_frame (name other : string) (members : list (string * json))
    (clock now : Q) (st : State) :
  other ≠ name →
  metrics (outcome_state (process_tracked name members clock now st)) !! other
    = metrics st !! other ∧
  recent_edits (outcome_state (process_tracked name members clock now st)) !! other
    = recent_edits st !! other.
Proof.
  intros Hne.
  destruct (process_tracked_cases name members clock now st)
    as [[_ ->]|(m & _ & [[_ ->]|(z & _ & [[_ ->]|(iso & _ & ->)])])]; simpl;
    try (split; [by rewrite ?lookup_insert_ne|done]).
  destruct (flushed_frame now _ _ (flush_periodically_flushed now
              (recorded_edit name members z iso m st))) as (-> & -> & _).
  destruct (recorded_edit_fields name members z iso m st) as (-> & -> & _).
  by rewrite !lookup_insert_ne.
Qed.

(** X15. A line touches the metrics entry and the deque of one title at
    most, the title of the event it carries: for every other title both
    are exactly as before, whether the pass completes or raises. *)
Theorem other_titles_untouched (json_loads : string → Loaded)
    (raw_line : string) (clock now : Q) (st : State) (other : string) :
  (∀ event, json_loads (payload raw_line) = Decoded event → tracked_title event ≠ Some other) →
  metrics (outcome_state (process_line json_loads raw_line clock now st)) !! other
    = metrics st !! other ∧
  recent_edits (outcome_state (process_line json_loads raw_line clock now st)) !! other
    = recent_edits st !! other.
Proof.
  intros Hother.
  destruct (process_line_cases json_loads raw_line clock now st)
    as [-> | [(e & _ & ->) | (event & _ & Hloads & ->)]]; [done|done|].
  specialize (Hother event Hloads).
  pose proof (process_event_cases event clock now st) as Hcases.
  destruct (tracked_title event) as [name|].
  - destruct Hcases as (members & _ & _ & ->).
    apply process_tracked_frame. congruence.
  - destruct (ill_shaped event); by rewrite Hcases.
Qed.

Lemma other_titles_untouched_witness :
  metrics (outcome_state (process_line JsonRef.loads (feed_line edit_by_alice) 0 25 (init 0)))
    !! "YouTube" = metrics (init 0) !! "YouTube" ∧
  recent_edits (outcome_state (process_line JsonRef.loads (feed_line edit_by_alice) 0 25 (init 0)))
    !! "YouTube" = recent_edits (init 0) !! "YouTube".
Proof.
  apply (other_titles_untouched JsonRef.loads (feed_line edit_by_alice) 0 25 (init 0) "YouTube").
  intros event Hloads. vm_compute in Hloads. injection Hloads as <-. by vm_compute.
Defined.

Lemma utf8_take_length (n : nat) (s : string) :
  utf8_length (utf8_take n s) = (n `min` utf8_length s)%nat.
Proof.
  revert n. induction s as [|c s IH]; intros n; [by destruct n|].
  cbn [utf8_take utf8_length]. destruct (is_continuation c) eqn:Hc.
  - cbn [utf8_length]. rewrite Hc. apply IH.
  - destruct n as [|n]; [done|]. cbn [utf8_length]. by rewrite Hc, IH.
Qed.

Lemma utf8_take_prefix (n : nat) (s : string) :
  String.prefix (utf8_take n s) s = true.
Proof.
  revert n. induction s as [|c s IH]; intros n; simpl; [done|].
  destruct (is_continuation c); [|destruct n as [|n]; [done|]]; simpl;
    (destruct (ascii_dec c c); [apply IH|done]).
Qed.

Lemma utf8_take_all (n : nat) (s : string) :
  (utf8_length s ≤ n)%nat → utf8_take n s = s.
Proof.
  revert n. induction s as [|c s IH]; intros n Hlen; simpl in *; [done|].
  destruct (is_continuation c).
  - by rewrite IH.
  - destruct n as [|n]; [lia|]. rewrite IH; [done|lia].
Qed.

(** X16. The comment written to the CSV file is the stored comment cut to
    its first 200 characters, counted as Python counts them and not as
    bytes; the entry in memory keeps the whole comment, and a comment of
    at most 200 characters is written as it is. *)
Theorem csv_comment_is_truncated (name s : string) (m : EntityMetrics) (st : State) :
  last_comment m = JStr s →
  ∃ c, append_metrics_row name m st =
         inr (with_rows [mkRow name (total_edits m) (default "" (last_edit_utc m))
                               (or_empty (last_user m)) (JStr c)] st) ∧
       metrics (with_rows [mkRow name (total_edits m) (default "" (last_edit_utc m))
                                 (or_empty (last_user m)) (JStr c)] st) = metrics st ∧
       String.prefix c s = true ∧
       utf8_length c = (200 `min` utf8_length s)%nat ∧
       ((utf8_length s ≤ 200)%nat → c = s).
Proof.
  intros Hcomment. exists (utf8_take 200 s).
  assert (comment_cell (JStr s) = Some (JStr (utf8_take 200 s))) as Hcell.
  { unfold comment_cell, or_empty. simpl. destruct (String.eqb_spec s "") as [->|_]; done. }
  split; [unfold append_metrics_row; by rewrite Hcomment, Hcell|]. split; [done|].
  split; [apply utf8_take_prefix|]. split; [apply utf8_take_length|].
  apply utf8_take_all.
Qed.

Lemma csv_comment_is_truncated_witness :
  (∃ c, append_metrics_row "YouTube" (mkMetrics 3 None JNull (JStr long_accented_comment)) (init 0) =
          inr (with_rows [mkRow "YouTube" 3 "" (JStr "") (JStr c)] (init 0)) ∧
        metrics (with_rows [mkRow "YouTube" 3 "" (JStr "") (JStr c)] (init 0)) = metrics (init 0) ∧
        String.prefix c long_accented_comment = true ∧
        utf8_length c = (200 `min` utf8_length long_accented_comment)%nat ∧
        ((utf8_length long_accented_comment ≤ 200)%nat → c = long_accented_comment)) ∧
  utf8_length long_accented_comment = 250%nat ∧
  String.length long_accented_comment = 500%nat ∧
  comment_cell (JStr long_accented_comment)
    = Some (JStr (String.concat EmptyString (replicate 200 (chr 233)))).
Proof.
  split; [|by vm_compute].
  apply (csv_comment_is_truncated "YouTube" long_accented_comment
           (mkMetrics 3 None JNull (JStr long_accented_comment)) (init 0)).
  reflexivity.
Defined.

Lemma rows_for_unsliceable (titles : list string) (dict : gmap string EntityMetrics)
    (name : string) (m : EntityMetrics) :
  (∀ t, t ∈ titles → is_Some (dict !! t)) →
  name ∈ titles → dict !! name = Some m → comment_cell (last_comment m) = None →
  (rows_for titles dict).2 = Some TypeError ∧
  (length (rows_for titles dict).1 < length titles)%nat.
Proof.
  intros Hall Hin Hm Hcell. induction titles as [|t rest IH]; [by apply elem_of_nil in Hin|].
  simpl. unfold row_for.
  destruct (Hall t) as [mt Hmt]; [by left|]. rewrite Hmt.
  destruct (comment_cell (last_comment mt)) as [c|] eqn:Hc; simpl; [|split; [done|lia]].
  apply elem_of_cons in Hin as [->|Hin]; [congruence|].
  destruct IH as [-> Hlen]; [|done|].
  - intros t' Ht'. apply Hall. by right.
  - split; [done|lia].
Qed.

(** X17. A stored comment that cannot be sliced (a non-zero number, [True]
    or a non-empty dict, which [json.loads] accepts as [comment]) makes
    the next due flush raise [TypeError] out of [run_stream]: the rows of
    the titles iterated before it are written, the snapshot is not
    refreshed and the timer is not restarted. *)
Theorem unsliceable_comment_breaks_flush (now : Q) (st : State) (name : string)
    (m : EntityMetrics) :
  dom (metrics st) = TRACKED_TITLES →
  name ∈ TRACKED_TITLES → metrics st !! name = Some m →
  comment_cell (last_comment m) = None →
  flush_due now st = true →
  ∃ rows, flush_periodically now st = Raise TypeError (with_rows rows st) ∧
          (length rows < size TRACKED_TITLES)%nat ∧
          snapshot_json (with_rows rows st) = snapshot_json st ∧
          last_flush (with_rows rows st) = last_flush st.
Proof.
  intros Hdom Hin Hm Hcell Hdue.
  destruct (rows_for_unsliceable (elements TRACKED_TITLES) (metrics st) name m)
    as [Herr Hlen]; [|by apply elem_of_elements|exact Hm|exact Hcell|].
  { intros t Ht. apply elem_of_dom. rewrite Hdom. by apply elem_of_elements. }
  exists (rows_for (elements TRACKED_TITLES) (metrics st)).1.
  rewrite flush_periodically_rows_for, Hdue, Herr.
  split; [reflexivity|]. split; [exact Hlen|]. split; reflexivity.
Qed.

Lemma unsliceable_comment_breaks_flush_witness :
  ∃ rows, flush_periodically 30
            (set_metrics (<["Elon Musk" := mkMetrics 1 None JNull (JInt 7)]>) (init 0))
          = Raise TypeError
              (with_rows rows (set_metrics (<["Elon Musk" := mkMetrics 1 None JNull (JInt 7)]>) (init 0))) ∧
          (length rows < size TRACKED_TITLES)%nat ∧
          snapshot_json (with_rows rows (set_metrics (<["Elon Musk" := mkMetrics 1 None JNull (JInt 7)]>) (init 0)))
            = snapshot_json (set_metrics (<["Elon Musk" := mkMetrics 1 None JNull (JInt 7)]>) (init 0)) ∧
          last_flush (with_rows rows (set_metrics (<["Elon Musk" := mkMetrics 1 None JNull (JInt 7)]>) (init 0)))
            = last_flush (set_metrics (<["Elon Musk" := mkMetrics 1 None JNull (JInt 7)]>) (init 0)).
Proof.
  apply (unsliceable_comment_breaks_flush 30
           (set_metrics (<["Elon Musk" := mkMetrics 1 None JNull (JInt 7)]>) (init 0))
           "Elon Musk" (mkMetrics 1 None JNull (JInt 7))); by vm_compute.
Defined.

(** X18. Across any series of runs of the program on the same CSV path,
    the header row is written exactly once, by the first run and only if
    the file did not exist; a file that exists is never rewritten, and
    every run only appends its rows after what was there. *)
Theorem csv_header_written_once (file : option (list CsvLine))
    (rows : list MetricsRow) (runs : list (list MetricsRow)) :
  csv_after_runs file (rows :: runs) =
    Some (default [HeaderLine CSV_HEADER] file ++ map DataLine (concat (rows :: runs))) ∧
  write_csv_header_if_needed (write_csv_header_if_needed file)
    = write_csv_header_if_needed file.
Proof.
  split; [|by destruct file].
  assert (∀ runs content,
            csv_after_runs (Some content) runs
            = Some (content ++ map DataLine (concat runs))) as Hexisting.
  { clear. induction runs as [|r runs IH]; intros content; simpl.
    - by rewrite app_nil_r.
    - unfold csv_after_runs in *. simpl.
      unfold csv_after_run at 2, append_rows_to_file. simpl.
      rewrite IH, map_app. by rewrite (assoc_L (++)). }
  unfold csv_after_runs. cbn [foldl]. fold (csv_after_runs (csv_after_run file rows) runs).
  unfold csv_after_run, append_rows_to_file.
  rewrite Hexisting. cbn [concat]. rewrite map_app, (assoc_L (++)). by destruct file.
Qed.

Lemma alerts_for_app (name : string) (l1 l2 : list string) :
  alerts_for name (l1 ++ l2) = (alerts_for name l1 + alerts_for name l2)%nat.
Proof. unfold alerts_for. by rewrite List.filter_app, length_app. Qed.

Lemma alerts_for_one (name other : string) :
  alerts_for name [alert_message other ALERT_COUNT] = if decide (name = other) then 1%nat else 0%nat.
Proof.
  unfold alerts_for. cbn [List.filter].
  destruct (String.eqb_spec (alert_message name ALERT_COUNT) (alert_message other ALERT_COUNT))
    as [Heq|Hne].
  - apply alert_message_inj in Heq as ->. by rewrite decide_True.
  - rewrite decide_False; [done|]. by intros ->.
Qed.

Lemma alerts_for_info (name e : string) :
  alerts_for name ["INFO: reconnecting after error: " +:+ e] = 0%nat.
Proof. reflexivity. Qed.

(** How one call of lines 180-192 moves a deque that is below the
    threshold. *)
Lemma record_edit_account (dq : list Z) (ts : Z) :
  (length dq < ALERT_COUNT)%nat →
  fired (record_edit dq ts) = true ∧ window_size (record_edit dq ts) = ALERT_COUNT ∧
    dq_after (record_edit dq ts) = [] ∧ (ALERT_COUNT ≤ S (length dq))%nat
  ∨ fired (record_edit dq ts) = false ∧
    (length (dq_after (record_edit dq ts)) ≤ S (length dq))%nat.
Proof.
  intros Hlt. pose proof (window_length_le dq ts) as Hle.
  unfold record_edit. case_bool_decide; simpl.
  - left. repeat split; [unfold ALERT_COUNT in *; lia|lia].
  - right. split; [done|lia].
Qed.

(** The account of a title: alerts logged, timestamps retained, edits
    counted. *)
Lemma account_of_pass (now : Q) (st : State) (o : Outcome) (name : string) :
  pass now st o → windows_below st →
  (ALERT_COUNT * alerts_for name (alerts_log st) + length (deque_of name st)
   ≤ edits_counted name st)%nat →
  (ALERT_COUNT * alerts_for name (alerts_log (outcome_state o))
   + length (deque_of name (outcome_state o))
   ≤ edits_counted name (outcome_state o))%nat.
Proof.
  intros Hpass Hbelow Hacc.
  destruct Hpass as [|e He|e He|name0 Htracked Hnone0|name0 m0 e Htracked Hm0 He
                     |name0 m0 members z iso o Htracked Hm0 Hflush]; simpl; try done.
  - unfold edits_counted, deque_of in *. simpl.
    destruct (decide (name0 = name)) as [->|Hne].
    + rewrite lookup_insert_eq. rewrite Hm0 in Hacc. simpl in *. lia.
    + by rewrite lookup_insert_ne.
  - destruct (flushed_frame _ _ _ Hflush) as (Hmet & Hrec & Hlog).
    unfold edits_counted, deque_of in *. rewrite Hmet, Hrec, Hlog.
    destruct (recorded_edit_fields name0 members z iso m0 st) as (-> & -> & -> & _).
    assert (length (deque_of name0 st) < ALERT_COUNT)%nat as Hdq.
    { unfold deque_of. destruct (recent_edits st !! name0) as [dq|] eqn:Hlook; simpl.
      - by eapply Hbelow.
      - unfold ALERT_COUNT. lia. }
    destruct (decide (name0 = name)) as [->|Hne].
    + rewrite !lookup_insert_eq. rewrite Hm0 in Hacc. simpl in *.
      destruct (record_edit_account (deque_of name st) z Hdq)
        as [(-> & -> & -> & Hfull)|[-> Hlen]].
      * rewrite alerts_for_app, alerts_for_one, decide_True by done.
        unfold deque_of in *. simpl. unfold ALERT_COUNT in *. lia.
      * rewrite app_nil_r. unfold deque_of in *. lia.
    + rewrite !lookup_insert_ne by done.
      destruct (record_edit_account (deque_of name0 st) z Hdq)
        as [(-> & -> & _)|[-> _]].
      * rewrite alerts_for_app, alerts_for_one, decide_False by done.
        unfold ALERT_COUNT in *. lia.
      * by rewrite app_nil_r.
Qed.

(** X19. In every state [run_stream] can reach and for every title, five
    times the number of alerts logged for the title, plus the timestamps
    its deque retains, never exceeds its [total_edits]: every alert in
    the log is backed by [ALERT_COUNT] counted edits of that title which
    no other alert uses. *)
Theorem alerts_backed_by_counted_edits (json_loads : string → Loaded)
    (t0 : Q) (inputs : list Input) (mode : Mode) (st : State) (name : string) :
  run json_loads (Connecting, init t0) inputs = Some (mode, st) →
  (ALERT_COUNT * alerts_for name (alerts_log st) + length (deque_of name st)
   ≤ edits_counted name st)%nat.
Proof.
  intros Hrun.
  apply (run_invariant json_loads
           (λ c, (windows_below c.2 ∧ alerts_exact c.2) ∧
                 (ALERT_COUNT * alerts_for name (alerts_log c.2) + length (deque_of name c.2)
                  ≤ edits_counted name c.2)%nat))
    with (inputs := inputs) (c := (Connecting, init t0)) (c' := (mode, st));
    [| |exact Hrun].
  - clear. intros [mode st] i [mode' st'] [[Hbelow Hexact] Hacc] Hstep. simpl in *.
    split; [by eapply step_rule|].
    apply step_inv in Hstep
      as [(-> & _)|[(e & _ & _ & ->)|[(_ & _ & ->)
         |(raw & clock & now & _ & _ & Hpass)]]]; simpl.
    + exact Hacc.
    + rewrite alerts_for_app, alerts_for_info. unfold edits_counted, deque_of in *.
      simpl. lia.
    + exact Hacc.
    + assert (∃ o, pass now st o ∧ outcome_state o = st') as (o & Hp & <-).
      { destruct Hpass as [[_ Hp]|(e & _ & Hp)]; eexists; (split; [exact Hp|done]). }
      by apply (account_of_pass now st o name).
  - simpl. split; [split|].
    + intros dq_name dq. simpl. by rewrite lookup_empty.
    + constructor.
    + unfold alerts_for, deque_of, edits_counted. simpl. rewrite lookup_empty. simpl. lia.
Qed.

Lemma alerts_backed_by_counted_edits_witness :
  ∃ mode st, run JsonRef.loads (Connecting, init 0) burst = Some (mode, st) ∧
    alerts_for "Wikipedia" (alerts_log st) = 1%nat ∧
    (ALERT_COUNT * alerts_for "Wikipedia" (alerts_log st) + length (deque_of "Wikipedia" st)
     ≤ edits_counted "Wikipedia" st)%nat.
Proof.
  eexists _, _. split; [by vm_compute|]. split; [by vm_compute|].
  eapply (alerts_backed_by_counted_edits JsonRef.loads 0%Q burst). by vm_compute.
Defined.
